(** * A model of the task-manager API (src/src/app.py, models.py, utils.py)

    Python strings are sequences of code points, modelled as [list Z].
    The database is the pair of tables [user] and [task], each a list of
    rows in rowid order; SQLite (as configured in app.py, without
    [PRAGMA foreign_keys = ON]) enforces neither the foreign key nor the
    [String(50)] length, so a commit writes whatever the session holds.
    Handlers run in a small state-and-exception monad: a committed write
    stays in the database even when a later statement raises. *)

From Stdlib Require Import List ZArith Bool String Ascii Lia.
Import ListNotations.
Open Scope Z_scope.

(** ** Python strings *)

Definition pystr := list Z.

(** A string literal of the source, as code points. *)
Definition str_of (s : string) : pystr :=
  map (fun a => Z.of_nat (nat_of_ascii a)) (list_ascii_of_string s).

Definition pystr_eqb (a b : pystr) : bool :=
  (List.length a =? List.length b)%nat && forallb (fun p => fst p =? snd p) (combine a b).


Definition in_range (lo hi c : Z) : bool := (lo <=? c) && (c <=? hi).
Definition is_alpha (c : Z) : bool := in_range 65 90 c || in_range 97 122 c.
Definition is_digit (c : Z) : bool := in_range 48 57 c.
Definition is_space (c : Z) : bool := in_range 9 13 c || (c =? 32).
Definition to_lower (c : Z) : Z := if in_range 65 90 c then c + 32 else c.

(** [str(n)] for an int. *)
Fixpoint digits_aux (fuel : nat) (n : Z) (acc : pystr) : pystr :=
  match fuel with
  | O => acc
  | S f =>
      let acc' := (48 + n mod 10) :: acc in
      if n <? 10 then acc' else digits_aux f (n / 10) acc'
  end.

Definition py_str (z : Z) : pystr :=
  if z <? 0 then 45 :: digits_aux (S (Z.to_nat (Z.log2 (- z)))) (- z) []
  else digits_aux (S (Z.to_nat (Z.log2 z))) z [].

(** [int(s)] for a str, base 10: surrounding whitespace, an optional sign,
    decimal digits with single underscores between digits; anything else
    raises [ValueError] (here [None]). *)
Fixpoint drop_space (s : pystr) : pystr :=
  match s with
  | c :: s' => if is_space c then drop_space s' else s
  | [] => []
  end.

Definition strip (s : pystr) : pystr := rev (drop_space (rev (drop_space s))).

Fixpoint parse_digits (s : pystr) (acc : Z) (after_digit : bool) : option Z :=
  match s with
  | [] => if after_digit then Some acc else None
  | c :: s' =>
      if is_digit c then parse_digits s' (acc * 10 + (c - 48)) true
      else if (c =? 95) && after_digit then
        match s' with
        | d :: _ => if is_digit d then parse_digits s' acc false else None
        | [] => None
        end
      else None
  end.

Definition py_int (s : pystr) : option Z :=
  match strip s with
  | c :: s' =>
      if c =? 45 then option_map Z.opp (parse_digits s' 0 false)
      else if c =? 43 then parse_digits s' 0 false
      else parse_digits (c :: s') 0 false
  | [] => None
  end.

(** Python truthiness of an optional str ([None] and [""] are falsy). *)
Definition truthy (o : option pystr) : bool :=
  match o with Some (_ :: _) => true | _ => false end.

(** ** JSON request bodies *)

Inductive JVal :=
| JStr (s : pystr)
| JInt (z : Z)
| JBool (b : bool)
| JNull.

(** A JSON object; [json.loads] keeps the last value of a repeated key. *)
Definition Body := list (pystr * JVal).

Definition lookup (k : pystr) (b : Body) : option JVal :=
  fold_left (fun acc kv => if pystr_eqb (fst kv) k then Some (snd kv) else acc) b None.

Definition only_keys (ks : list pystr) (b : Body) : bool :=
  forallb (fun kv => existsb (pystr_eqb (fst kv)) ks) b.

(** Lax-mode coercions of pydantic for the field types of the schemas. *)
Definition as_str (v : JVal) : option pystr :=
  match v with JStr s => Some s | _ => None end.

Definition bool_words_false : list string := ["0"; "f"; "n"; "no"; "off"; "false"]%string.
Definition bool_words_true : list string := ["1"; "t"; "y"; "yes"; "on"; "true"]%string.

Definition as_bool (v : JVal) : option bool :=
  match v with
  | JBool b => Some b
  | JInt z => if z =? 0 then Some false else if z =? 1 then Some true else None
  | JStr s =>
      let s' := map to_lower s in
      if existsb (fun w => pystr_eqb (str_of w) s') bool_words_false then Some false
      else if existsb (fun w => pystr_eqb (str_of w) s') bool_words_true then Some true
      else None
  | JNull => None
  end.

Definition as_int (v : JVal) : option Z :=
  match v with
  | JInt z => Some z
  | JBool b => Some (if b then 1 else 0)
  | JStr s => py_int s
  | JNull => None
  end.

(** ** Request schemas (models.py) *)

(** The email pattern of [LoginInput]:
    [^[A-Za-z0-9._%+-]+@[A-Za-z0-9.-]+\.[A-Za-z]{2,}$], read as a
    concatenation: a split [l ++ r] of the input, [l] one or more characters
    of the first class, [r] an [@] then a split [d ++ r2] with [d] one or
    more characters of the second class and [r2] a [.] followed by two or
    more ASCII letters, up to the end of the input. *)
Definition local_char (c : Z) : bool :=
  is_alpha c || is_digit c || (c =? 46) || (c =? 95) || (c =? 37) || (c =? 43) || (c =? 45).

Definition domain_char (c : Z) : bool := is_alpha c || is_digit c || (c =? 46) || (c =? 45).

Definition plus_class (p : Z -> bool) (s : pystr) : bool :=
  match s with [] => false | _ => forallb p s end.

Fixpoint splits (s : pystr) : list (pystr * pystr) :=
  match s with
  | [] => [([], [])]
  | c :: s' => ([], s) :: map (fun p => (c :: fst p, snd p)) (splits s')
  end.

Definition tld_part (r : pystr) : bool :=
  match r with
  | c :: tld => (c =? 46) && (2 <=? List.length tld)%nat && forallb is_alpha tld
  | [] => false
  end.

Definition domain_part (r : pystr) : bool :=
  match r with
  | c :: r' =>
      (c =? 64) && existsb (fun p => plus_class domain_char (fst p) && tld_part (snd p)) (splits r')
  | [] => false
  end.

Definition email_pattern (s : pystr) : bool :=
  existsb (fun p => plus_class local_char (fst p) && domain_part (snd p)) (splits s).

Module LoginInput.
Record t := mk { email : pystr; password : pystr }.
End LoginInput.

(** [LoginInput]: [extra="forbid"]; [email]: str, [max_length=254], the
    pattern above; [password]: str, [min_length=7]. [None] is a validation
    error (FastAPI answers 422). *)
Definition validate_login_input (b : Body) : option LoginInput.t :=
  if negb (only_keys [str_of "email"; str_of "password"] b) then None else
  match option_map as_str (lookup (str_of "email") b),
        option_map as_str (lookup (str_of "password") b) with
  | Some (Some e), Some (Some p) =>
      if (List.length e <=? 254)%nat && email_pattern e && (7 <=? List.length p)%nat
      then Some (LoginInput.mk e p) else None
  | _, _ => None
  end.

Module InputTask.
Record t := mk { title : pystr; completed : bool; user_id : Z }.
End InputTask.

(** [BaseTask]/[InputTask]: [extra="forbid"]; [title]: str,
    [max_length=50]; [completed]: bool, default [False]; [user_id]: int,
    [gt=0]. *)
Definition validate_title (v : option JVal) : option pystr :=
  match v with
  | Some j => match as_str j with
              | Some s => if (List.length s <=? 50)%nat then Some s else None
              | None => None
              end
  | None => None
  end.

Definition validate_completed (v : option JVal) : option bool :=
  match v with Some j => as_bool j | None => Some false end.

Definition validate_user_id (v : option JVal) : option Z :=
  match v with
  | Some j => match as_int j with Some z => if 0 <? z then Some z else None | None => None end
  | None => None
  end.

Definition validate_input_task (b : Body) : option InputTask.t :=
  if negb (only_keys [str_of "title"; str_of "completed"; str_of "user_id"] b) then None else
  match validate_title (lookup (str_of "title") b),
        validate_completed (lookup (str_of "completed") b),
        validate_user_id (lookup (str_of "user_id") b) with
  | Some ti, Some c, Some u => Some (InputTask.mk ti c u)
  | _, _, _ => None
  end.

Module OutputTask.
Record t := mk { id : Z; title : pystr; completed : bool; user_id : Z }.
End OutputTask.

(** ** Database rows (models.py) *)

Module UserDB.
Record t := mk { id : Z; email : pystr; password_hash : pystr }.
End UserDB.

Module TaskDB.
Record t := mk { id : Z; title : pystr; completed : bool; user_id : Z }.

(** [to_dict] *)
Definition to_dict (r : t) : OutputTask.t :=
  OutputTask.mk (id r) (title r) (completed r) (user_id r).
End TaskDB.

Record DB := mkDB { users : list UserDB.t; tasks : list TaskDB.t }.

Definition empty_db : DB := mkDB [] [].

(** SQLite's rowids are signed 64-bit integers. *)
Definition ROWID_MAX : Z := 2 ^ 63 - 1.

(** The integers sqlite3 binds as a parameter without [OverflowError]. *)
Definition int64_range (z : Z) : Prop := - 2 ^ 63 <= z <= ROWID_MAX.

(** The first rowid from [c] on, up to [ROWID_MAX], that no row has,
    trying at most [fuel] of them. *)
Fixpoint free_rowid (fuel : nat) (c : Z) (ids : list Z) : option Z :=
  match fuel with
  | O => None
  | S f =>
      if ROWID_MAX <? c then None
      else if existsb (Z.eqb c) ids then free_rowid f (c + 1) ids else Some c
  end.

(** SQLite's rowid for an [INTEGER PRIMARY KEY] without AUTOINCREMENT: one
    more than the largest rowid of the table, or 1 when it is empty. Once
    the largest is [ROWID_MAX], SQLite tries positive rowids at random until
    one is free, and fails with SQLITE_FULL ([None]) when it finds none; of
    the rowids it may pick, the model takes the smallest free one. *)
Definition next_rowid (ids : list Z) : option Z :=
  match ids with
  | [] => Some 1
  | i :: is =>
      let m := fold_left Z.max is i in
      if m <? ROWID_MAX then Some (m + 1) else free_rowid (S (List.length ids)) 1 ids
  end.

(** ** Exceptions and the handler monad *)

Inductive Exn :=
| HTTPException (status_code : Z) (detail : pystr)
| RequestValidationError   (** FastAPI's 422 on a request that fails its schema *)
| ExpiredSignatureError    (** jose *)
| JWTError                 (** jose, any other decoding failure *)
| ValueError               (** also passlib's PasswordSizeError and NullPasswordError *)
| AssertionError
| ValidationError          (** pydantic, building a response model *)
| OverflowError
| JWSError                 (** jose, [jwt.encode] with an unusable key or algorithm *)
| OperationalError.        (** SQLAlchemy, on SQLite's SQLITE_FULL at the insert *)

Inductive Exc (A : Type) := Ret (a : A) | Raise (e : Exn).
Arguments Ret {A} a.
Arguments Raise {A} e.

(** One request: the database before, the outcome and the database after. *)
Definition M (A : Type) := DB -> Exc A * DB.

Definition ret {A} (a : A) : M A := fun db => (Ret a, db).
Definition raise {A} (e : Exn) : M A := fun db => (Raise e, db).
Definition bind {A B} (m : M A) (k : A -> M B) : M B :=
  fun db => match m db with
            | (Ret a, db') => k a db'
            | (Raise e, db') => (Raise e, db')
            end.
Notation "x <- m ;; k" := (bind m (fun x => k)) (at level 61, m at next level, right associativity).

(** [try: m except ...: h] *)
Definition try_except {A} (m : M A) (h : Exn -> M A) : M A :=
  fun db => match m db with
            | (Raise e, db') => h e db'
            | r => r
            end.

(** A query reads the committed state; [db.add(..); db.commit()] and the
    like replace it. *)
Definition query {A} (f : DB -> A) : M A := fun db => (Ret (f db), db).
Definition commit (f : DB -> DB) : M unit := fun db => (Ret tt, f db).

Fixpoint mapM {A B} (f : A -> M B) (l : list A) : M (list B) :=
  match l with
  | [] => ret []
  | x :: l' => y <- f x;; ys <- mapM f l';; ret (y :: ys)
  end.

Definition detail (s : string) : pystr := str_of s.

(** ** Configuration and tokens (utils.py) *)

Record Env := mkEnv {
  ACCESS_TOKEN_EXPIRE_MINUTES : option pystr;
  SECRET_KEY : option pystr;
  ALGORITHM : option pystr }.

(** [jwt.encode({"sub": str(id), "exp": expire}, secret_key, alg)]. The
    instant [expire = datetime.now() + timedelta(minutes=float(exp))] is
    not modelled: the token keeps the configured minutes, so two tokens
    issued at different times for the same user are not told apart here. *)
Record Token := mkToken { sub : pystr; exp_minutes : pystr; secret_key : pystr; alg : pystr }.

(** The library calls [create_token] makes, and whether they succeed:
    [float(exp)] (a [ValueError] otherwise, as is [timedelta] of a NaN),
    [datetime.now() + timedelta(minutes=...)] ([OverflowError] otherwise)
    and [jwt.encode] with the secret key and the algorithm ([JWSError]
    otherwise: an unsupported algorithm, or a key it cannot use). *)
Record TokenLib := mkTokenLib {
  float_ok : pystr -> bool;
  expiry_ok : pystr -> bool;
  encode_ok : pystr -> pystr -> bool }.

(** What [jwt.decode(token, secret_key, algorithms=[alg])] does with the
    bearer token: raise [ExpiredSignatureError], raise another [JWTError]
    (bad signature, undecodable structure, a non-string ["sub"]), or
    return the payload, of which the code reads ["sub"]. *)
Inductive Jose :=
| JoseExpired
| JoseInvalid
| JosePayload (payload_sub : option pystr).

Inductive RBody :=
| BMessage (m : pystr)
| BToken (access_token : Token)
| BTask (t : OutputTask.t)
| BTasks (l : list OutputTask.t)
| BDetail (d : pystr)
| BValidationErrors
| BInternalError.

Record Response := mkResp { status : Z; body : RBody }.

Inductive Request :=
| GetRoot
| PostLogin (b : Body)
| PostRegister (b : Body)
| GetTask (token : option Jose) (task_id : Z)
| PostTask (token : option Jose) (b : Body)
| DeleteTask (token : option Jose) (task_id : Z)
| PutTask (token : option Jose) (task_id : Z) (b : Body)
| GetTasks (token : option Jose).

Section Api.

(** passlib's bcrypt [hash] and [verify]; [None] when passlib raises (a
    [ValueError]: [PasswordSizeError] for a secret over 4096 characters,
    [NullPasswordError] for one with a NUL). *)
Variable hash_pwd : pystr -> option pystr.
Variable verify_pwd : pystr -> pystr -> option bool.
Variable token_lib : TokenLib.
Variable env : Env.

Definition create_token (id : Z) : M Token :=
  match ACCESS_TOKEN_EXPIRE_MINUTES env, SECRET_KEY env, ALGORITHM env with
  | Some ((_ :: _) as e), Some ((_ :: _) as k), Some ((_ :: _) as a) =>
      if negb (float_ok token_lib e) then raise ValueError
      else if negb (expiry_ok token_lib e) then raise OverflowError
      else if negb (encode_ok token_lib k a) then raise JWSError
      else ret (mkToken (py_str id) e k a)
  | _, _, _ => raise AssertionError
  end.

Definition decode_token (token : Jose) : M (option pystr) :=
  if truthy (SECRET_KEY env) && truthy (ALGORITHM env) then
    match token with
    | JoseExpired => raise ExpiredSignatureError
    | JoseInvalid => raise JWTError
    | JosePayload s => ret s
    end
  else raise AssertionError.

(** ** Handlers (app.py) *)

Definition find_user_by_email (e : pystr) (db : DB) : option UserDB.t :=
  find (fun u => pystr_eqb (UserDB.email u) e) (users db).

(** [db.query(UserDB).filter(UserDB.id == i).first()], and [TaskDB]'s below.
    The driver binds [i] as a signed 64-bit integer, and raises
    [OverflowError] for one outside that range; the lookups leave that
    bind out, so what is proved of an id that comes from the request (a
    path id, a token's subject, a body's [user_id]) is proved for ids in
    that range. *)
Definition find_user_by_id (i : Z) (db : DB) : option UserDB.t :=
  find (fun u => UserDB.id u =? i) (users db).

Definition find_task (i : Z) (db : DB) : option TaskDB.t :=
  find (fun t => TaskDB.id t =? i) (tasks db).

Definition login (data : LoginInput.t) : M Token :=
  user <- query (find_user_by_email (LoginInput.email data));;
  match user with
  | None => raise (HTTPException 401
                     (detail "Unable to find user with email: " ++ LoginInput.email data))
  | Some u =>
      match verify_pwd (LoginInput.password data) (UserDB.password_hash u) with
      | None => raise ValueError
      | Some false => raise (HTTPException 401 (detail "Wrong password"))
      | Some true => create_token (UserDB.id u)
      end
  end.

(** [db.add(user); db.commit(); db.refresh(user)] *)
Definition add_user (e h : pystr) : M UserDB.t :=
  fun db =>
    match next_rowid (map UserDB.id (users db)) with
    | None => (Raise OperationalError, db)
    | Some i => let u := UserDB.mk i e h in (Ret u, mkDB (users db ++ [u]) (tasks db))
    end.

Definition register (data : LoginInput.t) : M Token :=
  existing <- query (find_user_by_email (LoginInput.email data));;
  match existing with
  | Some _ => raise (HTTPException 422 (detail "Email already registered"))
  | None =>
      match hash_pwd (LoginInput.password data) with
      | None => raise ValueError
      | Some h => user <- add_user (LoginInput.email data) h;; create_token (UserDB.id user)
      end
  end.

Definition get_current_user (token : Jose) : M UserDB.t :=
  user_id <- try_except
    (payload_sub <- decode_token token;;
     match payload_sub with
     | Some ((_ :: _) as s) =>
         match py_int s with Some i => ret i | None => raise ValueError end
     | _ => raise (HTTPException 401 (detail "Invalid token payload"))
     end)
    (fun e => match e with
              | ExpiredSignatureError => raise (HTTPException 401 (detail "Token expired"))
              | JWTError => raise (HTTPException 401 (detail "Invalid token"))
              | e => raise e
              end);;
  user <- query (find_user_by_id user_id);;
  match user with
  | None => raise (HTTPException 401 (detail "Error fetching user"))
  | Some u => ret u
  end.

(** [OutputTask] built from [task.to_dict()]: the response model is validated. *)
Definition to_output (r : TaskDB.t) : M OutputTask.t :=
  let o := TaskDB.to_dict r in
  if (0 <? OutputTask.id o) && (List.length (OutputTask.title o) <=? 50)%nat
     && (0 <? OutputTask.user_id o)
  then ret o else raise ValidationError.

Definition get_task (task_id : Z) (user : UserDB.t) : M OutputTask.t :=
  task <- query (find_task task_id);;
  match task with
  | None => raise (HTTPException 404 (detail "Unable to find task " ++ py_str task_id))
  | Some t =>
      if negb (TaskDB.user_id t =? UserDB.id user)
      then raise (HTTPException 403 (detail "Not authorized to access this task"))
      else to_output t
  end.

(** [db.add(new_task); db.commit(); db.refresh(new_task)] *)
Definition add_task (it : InputTask.t) : M TaskDB.t :=
  fun db =>
    match next_rowid (map TaskDB.id (tasks db)) with
    | None => (Raise OperationalError, db)
    | Some i =>
        let r := TaskDB.mk i (InputTask.title it) (InputTask.completed it) (InputTask.user_id it) in
        (Ret r, mkDB (users db) (tasks db ++ [r]))
    end.

Definition create_task (task : InputTask.t) (user : UserDB.t) : M OutputTask.t :=
  userdb <- query (find_user_by_id (InputTask.user_id task));;
  match userdb with
  | None => raise (HTTPException 422
                     (detail "User with id " ++ py_str (InputTask.user_id task) ++ detail " does not exist"))
  | Some _ =>
      if negb (UserDB.id user =? InputTask.user_id task)
      then raise (HTTPException 403 (detail "Not authorized to create task for this user"))
      else new_task <- add_task task;; to_output new_task
  end.

(** [DELETE FROM task WHERE task.id = ?] *)
Definition delete_row (i : Z) (db : DB) : DB :=
  mkDB (users db) (filter (fun r => negb (TaskDB.id r =? i)) (tasks db)).

Definition delete_task (task_id : Z) (user : UserDB.t) : M OutputTask.t :=
  task <- query (find_task task_id);;
  match task with
  | None => raise (HTTPException 404 (detail "Task " ++ py_str task_id ++ detail " does not exist."))
  | Some t =>
      if negb (TaskDB.user_id t =? UserDB.id user)
      then raise (HTTPException 403 (detail "Not authorized to delete this task"))
      else _ <- commit (delete_row (TaskDB.id t));; to_output t
  end.

(** [UPDATE task SET title = ?, completed = ?, user_id = ? WHERE task.id = ?] *)
Definition update_row (r : TaskDB.t) (db : DB) : DB :=
  mkDB (users db) (map (fun r' => if TaskDB.id r' =? TaskDB.id r then r else r') (tasks db)).

Definition update_task (task_id : Z) (task : InputTask.t) (user : UserDB.t) : M OutputTask.t :=
  prev_task <- query (find_task task_id);;
  match prev_task with
  | None => raise (HTTPException 404 (detail "Task " ++ py_str task_id ++ detail " does not exist."))
  | Some p =>
      if negb (TaskDB.user_id p =? UserDB.id user)
      then raise (HTTPException 403 (detail "Not authorized to update this task"))
      else
        (* for key, value in task.model_dump().items(): setattr(prev_task, key, value) *)
        let p' := TaskDB.mk (TaskDB.id p) (InputTask.title task)
                    (InputTask.completed task) (InputTask.user_id task) in
        _ <- commit (update_row p');;
        to_output p'
  end.

Definition get_tasks (user : UserDB.t) : M (list OutputTask.t) :=
  ts <- query (fun db => filter (fun r => TaskDB.user_id r =? UserDB.id user) (tasks db));;
  mapM to_output ts.

(** ** Routing (FastAPI)

    Dependencies are solved first, so [get_current_user] (and the
    [OAuth2PasswordBearer] scheme before it) can answer 401 before the
    path and body are validated; a validation error answers 422 before the
    handler runs. *)

Definition oauth2_user (token : option Jose) : M UserDB.t :=
  match token with
  | None => raise (HTTPException 401 (detail "Not authenticated"))
  | Some t => get_current_user t
  end.

Definition validate {A} (v : option A) : M A :=
  match v with Some a => ret a | None => raise RequestValidationError end.

Definition exn_response (e : Exn) : Response :=
  match e with
  | HTTPException c d => mkResp c (BDetail d)
  | RequestValidationError => mkResp 422 BValidationErrors
  | _ => mkResp 500 BInternalError
  end.

Definition route {A} (code : Z) (out : A -> RBody) (m : M A) (db : DB) : Response * DB :=
  match m db with
  | (Ret a, db') => (mkResp code (out a), db')
  | (Raise e, db') => (exn_response e, db')
  end.

(** A request as the route receives it: path parameters and a JSON object
    body already parsed. A body that is not JSON at all is answered 422 by
    FastAPI before the dependencies run; it is not a [Request] here. *)
Definition handle (db : DB) (r : Request) : Response * DB :=
  match r with
  | GetRoot => (mkResp 200 (BMessage (detail "Server is running!")), db)
  | PostLogin b =>
      route 200 BToken (data <- validate (validate_login_input b);; login data) db
  | PostRegister b =>
      route 200 BToken (data <- validate (validate_login_input b);; register data) db
  | GetTask tok i =>
      route 200 BTask
        (user <- oauth2_user tok;; _ <- validate (if 0 <? i then Some tt else None);;
         get_task i user) db
  | PostTask tok b =>
      route 201 BTask
        (user <- oauth2_user tok;; task <- validate (validate_input_task b);;
         create_task task user) db
  | DeleteTask tok i =>
      route 202 BTask
        (user <- oauth2_user tok;; _ <- validate (if 0 <? i then Some tt else None);;
         delete_task i user) db
  | PutTask tok i b =>
      route 202 BTask
        (user <- oauth2_user tok;;
         task <- validate (if 0 <? i then validate_input_task b else None);;
         update_task i task user) db
  | GetTasks tok =>
      route 200 BTasks (user <- oauth2_user tok;; get_tasks user) db
  end.

(** A sequence of requests, each on the state the previous one left. *)
Definition run (rs : list Request) (db : DB) : DB :=
  fold_left (fun d r => snd (handle d r)) rs db.

End Api.

(** ** Properties of states and computations *)

(** Every task row references an existing user ([ForeignKey("user.id")]). *)
Definition fk_ok (db : DB) : Prop :=
  forall t, In t (tasks db) -> exists u, In u (users db) /\ UserDB.id u = TaskDB.user_id t.

(** The rows a response model accepts ([OutputTask]). *)
Definition task_valid (r : TaskDB.t) : Prop :=
  0 < TaskDB.id r /\ (List.length (TaskDB.title r) <= 50)%nat /\ 0 < TaskDB.user_id r.

Definition client_error (c : Z) : Prop := c = 401 \/ c = 403 \/ c = 404 \/ c = 422.

Definition read_only {A} (m : M A) : Prop := forall db, snd (m db) = db.

Definition no_client_error {A} (m : M A) : Prop :=
  forall db e db', m db = (Raise e, db') -> ~ client_error (status (exn_response e)).

Definition keeps_on_client_error {A} (m : M A) : Prop :=
  forall db e db', m db = (Raise e, db') -> client_error (status (exn_response e)) -> db' = db.

(** A computation keeps every stored task acceptable to the response model. *)
Definition keeps_valid {A} (m : M A) : Prop :=
  forall db, Forall task_valid (tasks db) -> Forall task_valid (tasks (snd (m db))).

Definition input_valid (it : InputTask.t) : Prop :=
  (List.length (InputTask.title it) <= 50)%nat /\ 0 < InputTask.user_id it.

(** A computation keeps a property of the database. *)
Definition preserves (P : DB -> Prop) {A} (m : M A) : Prop :=
  forall db, P db -> P (snd (m db)).

(** The keys the schema declares unique: [user.id], [user.email] (a unique
    column) and [task.id]. *)
Definition keys_unique (db : DB) : Prop :=
  NoDup (map UserDB.id (users db)) /\ NoDup (map UserDB.email (users db))
  /\ NoDup (map TaskDB.id (tasks db)).

(** The one route that writes a task's [user_id] without checking it. *)
Definition is_put (r : Request) : bool :=
  match r with PutTask _ _ _ => true | _ => false end.

(** One decimal digit after another, as [parse_digits] reads them. *)
Definition digit_step (acc c : Z) : Z := acc * 10 + (c - 48).

(** [create_token] can run: the three variables are set and non-empty, the
    expiry is a float whose [timedelta] fits, and [jwt.encode] accepts the
    key and the algorithm. *)
Definition env_configured (tl : TokenLib) (env : Env) : Prop :=
  match ACCESS_TOKEN_EXPIRE_MINUTES env, SECRET_KEY env, ALGORITHM env with
  | Some ((_ :: _) as e), Some ((_ :: _) as k), Some ((_ :: _) as a) =>
      float_ok tl e = true /\ expiry_ok tl e = true /\ encode_ok tl k a = true
  | _, _, _ => False
  end.

(** passlib's [validate_secret] and bcrypt's NUL check. *)
Definition passlib_accepts (p : pystr) : bool :=
  (List.length p <=? 4096)%nat && negb (existsb (Z.eqb 0) p).

(** A concrete configuration for the examples: a stand-in for bcrypt that
    stores the password itself but refuses the secrets passlib refuses, an
    HS256 signer, and a [.env] with all three variables. *)
Module Demo.
Definition hash_pwd (p : pystr) : option pystr := if passlib_accepts p then Some p else None.
Definition verify_pwd (p h : pystr) : option bool :=
  if passlib_accepts p then Some (pystr_eqb p h) else None.
Definition token_lib : TokenLib :=
  mkTokenLib (fun s => match py_int s with Some _ => true | None => false end)
             (fun _ => true)
             (fun _ a => pystr_eqb a (str_of "HS256")).
Definition env : Env :=
  mkEnv (Some (str_of "30")) (Some (str_of "change-me")) (Some (str_of "HS256")).

Definition handle := handle hash_pwd verify_pwd token_lib env.
Definition run := run hash_pwd verify_pwd token_lib env.

Definition token_of (uid : string) : option Jose := Some (JosePayload (Some (str_of uid))).

Definition credentials (e p : string) : Body :=
  [(str_of "email", JStr (str_of e)); (str_of "password", JStr (str_of p))].

Definition credentials_with (e : string) (p : pystr) : Body :=
  [(str_of "email", JStr (str_of e)); (str_of "password", JStr p)].

(** A password the schema accepts and passlib refuses: 5000 times [a]. *)
Definition long_password : pystr := repeat 97 (Z.to_nat 5000).

Definition task_body (title : pystr) (user_id : Z) : Body :=
  [(str_of "title", JStr title); (str_of "user_id", JInt user_id)].

Definition alice := UserDB.mk 1 (str_of "alice@example.com") (str_of "testpwd").
Definition bob := UserDB.mk 2 (str_of "bob@example.com") (str_of "testpwd").
Definition task1 := TaskDB.mk 1 (str_of "Sample Task 1") false 1.
Definition task3 := TaskDB.mk 3 (str_of "Sample Task 3") false 2.

(** The state of the test fixture, reduced to two users and two tasks. *)
Definition db0 : DB := mkDB [alice; bob] [task1; task3].
End Demo.
Lemma pystr_eqb_eq (a b : pystr) : pystr_eqb a b = true <-> a = b.
Proof.
  revert b; induction a as [|x a IH]; intros [|y b]; unfold pystr_eqb; simpl;
    split; intro H; try discriminate; try reflexivity.
  - apply andb_prop in H as [Hl Hf]. apply andb_prop in Hf as [Hxy Hf].
    apply Z.eqb_eq in Hxy. subst y. f_equal. apply IH.
    unfold pystr_eqb. rewrite Hl, Hf. reflexivity.
  - injection H as -> ->. rewrite Z.eqb_refl, Nat.eqb_refl. simpl.
    assert (pystr_eqb b b = true) as Hb by (apply IH; reflexivity).
    unfold pystr_eqb in Hb. apply andb_prop in Hb as [_ Hb]. exact Hb.
Qed.

(** ** The handler monad *)

Lemma ro_ret {A} (a : A) : read_only (ret a).
Proof. intro; reflexivity. Qed.

Lemma ro_raise {A} (e : Exn) : read_only (@raise A e).
Proof. intro; reflexivity. Qed.

Lemma ro_query {A} (f : DB -> A) : read_only (query f).
Proof. intro; reflexivity. Qed.

Lemma ro_validate {A} (v : option A) : read_only (validate v).
Proof. destruct v; intro; reflexivity. Qed.

Lemma ro_bind {A B} (m : M A) (k : A -> M B) :
  read_only m -> (forall a, read_only (k a)) -> read_only (bind m k).
Proof.
  intros Hm Hk db. unfold bind. specialize (Hm db).
  destruct (m db) as [[a|e] d]; simpl in *; subst; [apply Hk | reflexivity].
Qed.

Lemma ro_try_except {A} (m : M A) (h : Exn -> M A) :
  read_only m -> (forall e, read_only (h e)) -> read_only (try_except m h).
Proof.
  intros Hm Hh db. unfold try_except. specialize (Hm db).
  destruct (m db) as [[a|e] d]; simpl in *; subst; [reflexivity | apply Hh].
Qed.

Create HintDb monad.
#[export] Hint Resolve ro_ret ro_raise ro_query ro_validate : monad.

(** Splits a computation into its steps and its branches. *)
Ltac read_only_steps :=
  repeat (intros; match goal with
    | |- read_only (bind _ _) => apply ro_bind
    | |- read_only (try_except _ _) => apply ro_try_except
    | |- read_only (match ?x with _ => _ end) => destruct x
    | |- read_only (if ?b then _ else _) => destruct b
    | |- read_only (mapM _ _) => fail
    | |- read_only _ => solve [auto with monad]
    end).

Lemma ro_create_token tl env i : read_only (create_token tl env i).
Proof.
  unfold create_token.
  destruct (ACCESS_TOKEN_EXPIRE_MINUTES env) as [[|]|], (SECRET_KEY env) as [[|]|],
    (ALGORITHM env) as [[|]|]; read_only_steps.
Qed.

Lemma ro_to_output r : read_only (to_output r).
Proof. unfold to_output; read_only_steps. Qed.

Lemma ro_mapM_to_output l : read_only (mapM to_output l).
Proof.
  induction l as [|x l IH]; simpl; [apply ro_ret|].
  apply ro_bind; [apply ro_to_output|]. intro; apply ro_bind; [exact IH|]. intro; apply ro_ret.
Qed.

#[export] Hint Resolve ro_create_token ro_to_output ro_mapM_to_output : monad.

Lemma ro_decode_token env tok : read_only (decode_token env tok).
Proof. unfold decode_token; read_only_steps. Qed.

#[export] Hint Resolve ro_decode_token : monad.

Lemma ro_get_current_user env tok : read_only (get_current_user env tok).
Proof. unfold get_current_user; read_only_steps. Qed.

Lemma ro_oauth2_user env tok : read_only (oauth2_user env tok).
Proof. unfold oauth2_user; destruct tok; [apply ro_get_current_user | apply ro_raise]. Qed.

Lemma ro_login verify tl env data : read_only (login verify tl env data).
Proof. unfold login; read_only_steps. Qed.

Lemma ro_get_task i user : read_only (get_task i user).
Proof. unfold get_task; read_only_steps. Qed.

Lemma ro_get_tasks user : read_only (get_tasks user).
Proof. unfold get_tasks; read_only_steps. Qed.

#[export] Hint Resolve ro_get_current_user ro_oauth2_user ro_login ro_get_task ro_get_tasks : monad.

Lemma keeps_read_only {A} (m : M A) : read_only m -> keeps_on_client_error m.
Proof. intros H db e db' E _. specialize (H db). rewrite E in H. exact H. Qed.

Lemma keeps_bind_read_only {A B} (m : M A) (k : A -> M B) :
  read_only m -> (forall a, keeps_on_client_error (k a)) -> keeps_on_client_error (bind m k).
Proof.
  intros Hm Hk db e db' E C. unfold bind in E. specialize (Hm db).
  destruct (m db) as [[a|e'] d] eqn:Em; simpl in Hm; subst d.
  - exact (Hk a db e db' E C).
  - congruence.
Qed.

(** A write that can fail only with a server error, followed by steps that
    can fail only with a server error. *)
Lemma keeps_bind_write {A B} (m : M A) (k : A -> M B) :
  no_client_error m -> (forall a, no_client_error (k a)) ->
  keeps_on_client_error (bind m k).
Proof.
  intros Hm Hk db e db' E C. unfold bind in E. exfalso.
  destruct (m db) as [[a|e'] d] eqn:Ed.
  - exact (Hk a d e db' E C).
  - injection E as <- _. exact (Hm db e' d Ed C).
Qed.

Lemma keeps_raise {A} e : keeps_on_client_error (@raise A e).
Proof. apply keeps_read_only, ro_raise. Qed.

(** The branches of [create_token] on the library calls. *)
Ltac token_cases tl :=
  repeat match goal with
  | |- context [float_ok tl ?e] => destruct (float_ok tl e)
  | |- context [expiry_ok tl ?e] => destruct (expiry_ok tl e)
  | |- context [encode_ok tl ?k ?a] => destruct (encode_ok tl k a)
  end; cbn [negb].

Lemma nce_create_token tl env i : no_client_error (create_token tl env i).
Proof.
  intros db e db'. unfold create_token.
  destruct (ACCESS_TOKEN_EXPIRE_MINUTES env) as [[|]|], (SECRET_KEY env) as [[|]|],
    (ALGORITHM env) as [[|]|]; token_cases tl;
    intro E; unfold ret, raise in E; try discriminate;
    injection E as <- _; unfold client_error; simpl; lia.
Qed.

Lemma nce_to_output r : no_client_error (to_output r).
Proof.
  intros db e db'. unfold to_output. destruct (_ && _ && _); intro E; unfold ret, raise in E;
    [discriminate|].
  injection E as <- _. unfold client_error; simpl; lia.
Qed.

Lemma nce_add_user e h : no_client_error (add_user e h).
Proof.
  intros db e' db'. unfold add_user. destruct (next_rowid _); intro E; [discriminate|].
  injection E as <- _. unfold client_error; simpl; lia.
Qed.

Lemma nce_add_task it : no_client_error (add_task it).
Proof.
  intros db e' db'. unfold add_task. destruct (next_rowid _); intro E; [discriminate|].
  injection E as <- _. unfold client_error; simpl; lia.
Qed.

Lemma nce_commit f : no_client_error (commit f).
Proof. intros db e db' E. discriminate E. Qed.

#[export] Hint Resolve nce_add_user nce_add_task nce_commit
  nce_create_token nce_to_output keeps_raise : monad.

Ltac keeps_steps :=
  repeat (intros; cbv zeta; match goal with
    | |- keeps_on_client_error (bind (query _) _) =>
        apply keeps_bind_read_only; [apply ro_query|]
    | |- keeps_on_client_error (bind (add_user _ _) _) =>
        apply keeps_bind_write; [auto with monad | intro; auto with monad]
    | |- keeps_on_client_error (bind (add_task _) _) =>
        apply keeps_bind_write; [auto with monad | intro; auto with monad]
    | |- keeps_on_client_error (bind (commit _) _) =>
        apply keeps_bind_write; [auto with monad | intro; auto with monad]
    | |- keeps_on_client_error (match ?x with _ => _ end) => destruct x
    | |- keeps_on_client_error (if ?b then _ else _) => destruct b
    | |- keeps_on_client_error _ => solve [auto with monad]
    end).

Lemma keeps_register hash tl env data : keeps_on_client_error (register hash tl env data).
Proof. unfold register; keeps_steps. Qed.

Lemma keeps_create_task task user : keeps_on_client_error (create_task task user).
Proof. unfold create_task; keeps_steps. Qed.

Lemma keeps_delete_task i user : keeps_on_client_error (delete_task i user).
Proof. unfold delete_task; keeps_steps. Qed.

Lemma keeps_update_task i task user : keeps_on_client_error (update_task i task user).
Proof. unfold update_task; keeps_steps. Qed.

Lemma route_keeps {A} code (out : A -> RBody) m db :
  keeps_on_client_error m -> ~ client_error code ->
  client_error (status (fst (route code out m db))) -> snd (route code out m db) = db.
Proof.
  intros Hm Hc C. unfold route in *. destruct (m db) as [[a|e] d] eqn:E; simpl in *.
  - contradiction.
  - exact (Hm db e d E C).
Qed.

(** ** Claims *)

(** C4: whenever a request is answered with 401, 403, 404 or 422, the
    database after the request is the database before it: every handler
    commits its one mutation only after its last client-error check. *)
Theorem handle_client_error_keeps_db hash verify tl env db r :
  client_error (status (fst (handle hash verify tl env db r))) ->
  snd (handle hash verify tl env db r) = db.
Proof.
  assert (H2 : forall c, c = 200 \/ c = 201 \/ c = 202 -> ~ client_error c)
    by (unfold client_error; lia).
  destruct r as [| b | b | tok i | tok b | tok i | tok i b | tok]; simpl handle.
  - simpl. unfold client_error. lia.
  - apply route_keeps; [| apply H2; auto].
    apply keeps_bind_read_only; [apply ro_validate|]. intro; apply keeps_read_only, ro_login.
  - apply route_keeps; [| apply H2; auto].
    apply keeps_bind_read_only; [apply ro_validate|]. intro; apply keeps_register.
  - apply route_keeps; [| apply H2; auto].
    apply keeps_bind_read_only; [apply ro_oauth2_user|]. intro.
    apply keeps_bind_read_only; [apply ro_validate|]. intro; apply keeps_read_only, ro_get_task.
  - apply route_keeps; [| apply H2; auto].
    apply keeps_bind_read_only; [apply ro_oauth2_user|]. intro.
    apply keeps_bind_read_only; [apply ro_validate|]. intro; apply keeps_create_task.
  - apply route_keeps; [| apply H2; auto].
    apply keeps_bind_read_only; [apply ro_oauth2_user|]. intro.
    apply keeps_bind_read_only; [apply ro_validate|]. intro; apply keeps_delete_task.
  - apply route_keeps; [| apply H2; auto].
    apply keeps_bind_read_only; [apply ro_oauth2_user|]. intro.
    apply keeps_bind_read_only; [apply ro_validate|]. intro; apply keeps_update_task.
  - apply route_keeps; [| apply H2; auto].
    apply keeps_bind_read_only; [apply ro_oauth2_user|]. intro; apply keeps_read_only, ro_get_tasks.
Qed.

Lemma handle_client_error_keeps_db_witness :
  client_error (status (fst (Demo.handle Demo.db0 (DeleteTask (Demo.token_of "1") 3)))) /\
  snd (Demo.handle Demo.db0 (DeleteTask (Demo.token_of "1") 3)) = Demo.db0.
Proof.
  assert (C : client_error (status (fst (Demo.handle Demo.db0 (DeleteTask (Demo.token_of "1") 3)))))
    by (vm_compute; unfold client_error; lia).
  split; [exact C | apply (handle_client_error_keeps_db _ _ _ _ _ _ C)].
Defined.

(** ** Queries *)

(** [.first()] on a key that is unique in the table returns the row. *)
Lemma find_by_key {A K} (eqb : K -> K -> bool) (key : A -> K) (l : list A) x :
  (forall a b, eqb a b = true <-> a = b) ->
  NoDup (map key l) -> In x l -> find (fun y => eqb (key y) (key x)) l = Some x.
Proof.
  intros Heq. induction l as [|a l IH]; simpl; intros Hn Hin; [contradiction|].
  inversion Hn as [|? ? Hnot Hn']; subst.
  destruct Hin as [<-|Hin].
  - rewrite (proj2 (Heq _ _) eq_refl). reflexivity.
  - destruct (eqb (key a) (key x)) eqn:E.
    + apply Heq in E. exfalso. apply Hnot. rewrite E. apply in_map, Hin.
    + apply IH; assumption.
Qed.

Lemma find_none_intro {A} (f : A -> bool) l :
  (forall x, In x l -> f x = false) -> find f l = None.
Proof.
  induction l as [|a l IH]; simpl; intro H; [reflexivity|].
  rewrite (H a (or_introl eq_refl)). apply IH. intros; apply H; right; assumption.
Qed.

Lemma read_only_state {A} (m : M A) db r d : read_only m -> m db = (r, d) -> d = db.
Proof. intros H E. specialize (H db). rewrite E in H. exact H. Qed.

Lemma to_output_ret r db o d : to_output r db = (Ret o, d) -> o = TaskDB.to_dict r /\ d = db.
Proof.
  unfold to_output. destruct (_ && _ && _); intro E; unfold ret, raise in E;
    [injection E as <- <-; split; reflexivity | discriminate].
Qed.

Lemma to_output_valid r db : task_valid r -> to_output r db = (Ret (TaskDB.to_dict r), db).
Proof.
  intros (H1 & H2 & H3). unfold to_output. simpl.
  rewrite (proj2 (Z.ltb_lt _ _) H1), (proj2 (Nat.leb_le _ _) H2), (proj2 (Z.ltb_lt _ _) H3).
  reflexivity.
Qed.

Lemma mapM_to_output_ret l db os d :
  mapM to_output l db = (Ret os, d) -> os = map TaskDB.to_dict l /\ d = db.
Proof.
  revert db os d. induction l as [|x l IH]; simpl; intros db os d E.
  - injection E as <- <-. split; reflexivity.
  - unfold bind at 1 in E. destruct (to_output x db) as [[o|e] d1] eqn:E1; [|discriminate].
    apply to_output_ret in E1 as [-> ->].
    unfold bind in E. destruct (mapM to_output l db) as [[os'|e] d2] eqn:E2; [|discriminate].
    apply IH in E2 as [-> ->]. injection E as <- <-. split; reflexivity.
Qed.

Lemma mapM_to_output_valid l db :
  Forall task_valid l -> mapM to_output l db = (Ret (map TaskDB.to_dict l), db).
Proof.
  revert db. induction l as [|x l IH]; simpl; intros db Hv; [reflexivity|].
  inversion Hv; subst. unfold bind. rewrite to_output_valid by assumption.
  rewrite IH by assumption. reflexivity.
Qed.

(** C2: for a caller and a stored task whose [user_id] is not the caller's
    id, GET, PUT and DELETE /tasks/{id} all raise 403 and leave the database
    as it was (the task ids being unique, as the primary key makes them). *)
Theorem not_owner_forbidden db user t task :
  NoDup (map TaskDB.id (tasks db)) -> In t (tasks db) -> TaskDB.user_id t <> UserDB.id user ->
  get_task (TaskDB.id t) user db
    = (Raise (HTTPException 403 (detail "Not authorized to access this task")), db) /\
  update_task (TaskDB.id t) task user db
    = (Raise (HTTPException 403 (detail "Not authorized to update this task")), db) /\
  delete_task (TaskDB.id t) user db
    = (Raise (HTTPException 403 (detail "Not authorized to delete this task")), db).
Proof.
  intros Hn Hin Hne.
  assert (F : find_task (TaskDB.id t) db = Some t)
    by (apply (find_by_key Z.eqb TaskDB.id); [apply Z.eqb_eq | assumption | assumption]).
  rewrite <- Z.eqb_neq in Hne.
  unfold get_task, update_task, delete_task, bind, query. rewrite F. simpl.
  rewrite Hne. repeat split.
Qed.

Lemma not_owner_forbidden_witness :
  NoDup (map TaskDB.id (tasks Demo.db0)) /\ In Demo.task3 (tasks Demo.db0) /\
  TaskDB.user_id Demo.task3 <> UserDB.id Demo.alice /\
  get_task 3 Demo.alice Demo.db0
    = (Raise (HTTPException 403 (detail "Not authorized to access this task")), Demo.db0).
Proof.
  assert (Hn : NoDup (map TaskDB.id (tasks Demo.db0)))
    by (simpl; repeat constructor; simpl; intuition discriminate).
  assert (Hin : In Demo.task3 (tasks Demo.db0)) by (simpl; auto).
  assert (Hne : TaskDB.user_id Demo.task3 <> UserDB.id Demo.alice) by discriminate.
  split; [exact Hn | split; [exact Hin | split; [exact Hne |]]].
  exact (proj1 (not_owner_forbidden Demo.db0 Demo.alice Demo.task3
                  (InputTask.mk (str_of "x") false 1) Hn Hin Hne)).
Defined.

(** C5: once DELETE /tasks/{id} succeeds, GET /tasks/{id} on the new state
    answers 404 for every caller, and no task listed by GET /tasks/ for the
    owner has that id. *)
Theorem deleted_task_unfetchable db user tid o db' :
  delete_task tid user db = (Ret o, db') ->
  (forall u, get_task tid u db'
     = (Raise (HTTPException 404 (detail "Unable to find task " ++ py_str tid)), db')) /\
  (forall l d, get_tasks user db' = (Ret l, d) -> forall o', In o' l -> OutputTask.id o' <> tid).
Proof.
  unfold delete_task, bind at 1, query. intro E.
  destruct (find_task tid db) as [t|] eqn:F; [|discriminate].
  destruct (negb _); [discriminate|].
  unfold bind, commit in E.
  pose proof (read_only_state _ _ _ _ (ro_to_output t) E) as ->.
  apply find_some in F as [Hin Hid]. apply Z.eqb_eq in Hid. rewrite Hid.
  assert (G : find_task tid (delete_row tid db) = None).
  { apply find_none_intro. intros x Hx. unfold delete_row in Hx; simpl in Hx.
    apply filter_In in Hx as [_ Hx]. apply negb_true_iff in Hx. exact Hx. }
  split.
  - intro u. unfold get_task, bind, query. rewrite G. reflexivity.
  - intros l d El o' Ho'. unfold get_tasks, bind at 1, query in El.
    apply mapM_to_output_ret in El as [-> _].
    apply in_map_iff in Ho' as (r & <- & Hr).
    apply filter_In in Hr as [Hr _]. unfold delete_row in Hr; simpl in Hr.
    apply filter_In in Hr as [_ Hr]. apply negb_true_iff, Z.eqb_neq in Hr. exact Hr.
Qed.

Lemma deleted_task_unfetchable_witness :
  exists o db', delete_task 1 Demo.alice Demo.db0 = (Ret o, db') /\
    get_task 1 Demo.alice db'
    = (Raise (HTTPException 404 (detail "Unable to find task " ++ py_str 1)), db').
Proof.
  exists (TaskDB.to_dict Demo.task1), (delete_row 1 Demo.db0).
  assert (E : delete_task 1 Demo.alice Demo.db0
              = (Ret (TaskDB.to_dict Demo.task1), delete_row 1 Demo.db0)) by reflexivity.
  split; [exact E | exact (proj1 (deleted_task_unfetchable _ _ _ _ _ E) Demo.alice)].
Defined.

(** C6: a successful PUT /tasks/{id} returns the task with the path's id
    and exactly the title, completed and user_id of the request body, and
    the stored row with that id now holds those values. *)
Theorem update_task_overwrites db tid task user o db' :
  update_task tid task user db = (Ret o, db') ->
  o = OutputTask.mk tid (InputTask.title task) (InputTask.completed task) (InputTask.user_id task)
  /\ (exists r, In r (tasks db') /\ TaskDB.id r = tid)
  /\ (forall r, In r (tasks db') -> TaskDB.id r = tid ->
        r = TaskDB.mk tid (InputTask.title task) (InputTask.completed task) (InputTask.user_id task)).
Proof.
  unfold update_task, bind at 1, query. intro E.
  destruct (find_task tid db) as [p|] eqn:F; [|discriminate].
  destruct (negb _); [discriminate|].
  unfold bind, commit in E. apply to_output_ret in E as [-> ->].
  apply find_some in F as [Hin Hid]. apply Z.eqb_eq in Hid. rewrite Hid.
  unfold update_row; simpl. split; [reflexivity | split].
  - eexists. split; [apply in_map_iff; exists p; split; [|exact Hin]|].
    + rewrite Hid, Z.eqb_refl. reflexivity.
    + reflexivity.
  - intros r Hr Hr'. apply in_map_iff in Hr as (r0 & <- & _).
    revert Hr'. simpl. destruct (TaskDB.id r0 =? tid) eqn:Er; intro Hr'; [reflexivity|].
    apply Z.eqb_neq in Er. contradiction.
Qed.

Lemma update_task_overwrites_witness :
  exists o db', update_task 1 (InputTask.mk (str_of "Updated Task 1") false 1) Demo.alice Demo.db0
                = (Ret o, db') /\
    o = OutputTask.mk 1 (str_of "Updated Task 1") false 1.
Proof.
  set (it := InputTask.mk (str_of "Updated Task 1") false 1).
  set (p' := TaskDB.mk 1 (str_of "Updated Task 1") false 1).
  exists (TaskDB.to_dict p'), (update_row p' Demo.db0).
  assert (E : update_task 1 it Demo.alice Demo.db0 = (Ret (TaskDB.to_dict p'), update_row p' Demo.db0))
    by reflexivity.
  split; [exact E | exact (proj1 (update_task_overwrites _ _ _ _ _ _ E))].
Defined.

(** C7: for every caller, GET /tasks/ returns exactly the stored tasks
    whose [user_id] is the caller's id, on a database whose rows satisfy
    the response model (as every row written through the API does). *)
Theorem get_tasks_exactly_owned db user :
  Forall task_valid (tasks db) ->
  exists l, get_tasks user db = (Ret l, db) /\
    (forall o, In o l <-> exists r, In r (tasks db) /\ TaskDB.user_id r = UserDB.id user
                                    /\ o = TaskDB.to_dict r).
Proof.
  intro Hv. set (owned := filter (fun r => TaskDB.user_id r =? UserDB.id user) (tasks db)).
  exists (map TaskDB.to_dict owned). split.
  - unfold get_tasks, bind, query. apply mapM_to_output_valid.
    apply Forall_forall. intros x Hx. apply filter_In in Hx as [Hx _].
    exact (proj1 (Forall_forall _ _) Hv x Hx).
  - intro o. rewrite in_map_iff. split.
    + intros (r & <- & Hr). apply filter_In in Hr as [Hr Hu]. apply Z.eqb_eq in Hu.
      exists r. auto.
    + intros (r & Hr & Hu & ->). exists r. split; [reflexivity|].
      apply filter_In. split; [exact Hr | apply Z.eqb_eq, Hu].
Qed.

Lemma get_tasks_exactly_owned_witness :
  Forall task_valid (tasks Demo.db0) /\
  exists l, get_tasks Demo.alice Demo.db0 = (Ret l, Demo.db0) /\
    (forall o, In o l <-> exists r, In r (tasks Demo.db0) /\ TaskDB.user_id r = UserDB.id Demo.alice
                                    /\ o = TaskDB.to_dict r).
Proof.
  assert (Hv : Forall task_valid (tasks Demo.db0)).
  { repeat constructor; simpl; try lia. }
  split; [exact Hv | exact (get_tasks_exactly_owned Demo.db0 Demo.alice Hv)].
Defined.

(** C8: a login for a stored email with a password passlib refuses (over
    4096 characters, or with a NUL) is not answered 401: the schema accepts
    the password (it only asks for 7 characters), [verify_pwd] raises, and
    the request ends in a 500, whatever the password's hash. *)
Theorem login_refused_secret_500 hash verify tl env db b data u :
  (forall p h, passlib_accepts p = false -> verify p h = None) ->
  validate_login_input b = Some data ->
  NoDup (map UserDB.email (users db)) ->
  In u (users db) -> UserDB.email u = LoginInput.email data ->
  passlib_accepts (LoginInput.password data) = false ->
  handle hash verify tl env db (PostLogin b) = (mkResp 500 BInternalError, db).
Proof.
  intros Hpl V Hn Hu He Hp.
  assert (F : find_user_by_email (LoginInput.email data) db = Some u).
  { rewrite <- He.
    apply (find_by_key pystr_eqb UserDB.email); [apply pystr_eqb_eq | assumption | assumption]. }
  simpl handle. unfold route, bind at 1, validate. rewrite V.
  unfold ret at 1. cbv beta iota zeta.
  unfold login, bind at 1, query. rewrite F. cbv beta iota zeta.
  rewrite (Hpl _ _ Hp). reflexivity.
Qed.

Lemma login_refused_secret_500_witness :
  Demo.long_password <> UserDB.password_hash Demo.alice /\
  Demo.handle Demo.db0 (PostLogin (Demo.credentials_with "alice@example.com" Demo.long_password))
  = (mkResp 500 BInternalError, Demo.db0).
Proof.
  split.
  - intro H. apply (f_equal (@List.length Z)) in H. vm_compute in H. discriminate H.
  - apply (login_refused_secret_500 Demo.hash_pwd Demo.verify_pwd Demo.token_lib Demo.env Demo.db0 _
             (LoginInput.mk (str_of "alice@example.com") Demo.long_password) Demo.alice).
    + intros p h Hp. unfold Demo.verify_pwd. rewrite Hp. reflexivity.
    + vm_compute. reflexivity.
    + simpl; repeat constructor; simpl; intuition discriminate.
    + left; reflexivity.
    + reflexivity.
    + vm_compute. reflexivity.
Defined.

(** POST /login's outcomes when bcrypt gives an answer: an email no stored
    user has is a 401, a password [verify_pwd] rejects is a 401, and a
    password it accepts gets a token whose subject is [str(user.id)] when
    the token settings work (emails being unique, as the column's constraint
    makes them). *)
Theorem login_outcomes verify tl env db data :
  NoDup (map UserDB.email (users db)) ->
  ((forall u, In u (users db) -> UserDB.email u <> LoginInput.email data) ->
     login verify tl env data db
     = (Raise (HTTPException 401
                 (detail "Unable to find user with email: " ++ LoginInput.email data)), db)) /\
  (forall u, In u (users db) -> UserDB.email u = LoginInput.email data ->
     verify (LoginInput.password data) (UserDB.password_hash u) = Some false ->
     login verify tl env data db = (Raise (HTTPException 401 (detail "Wrong password")), db)) /\
  (forall u, In u (users db) -> UserDB.email u = LoginInput.email data ->
     verify (LoginInput.password data) (UserDB.password_hash u) = Some true ->
     env_configured tl env ->
     exists tok, login verify tl env data db = (Ret tok, db) /\ sub tok = py_str (UserDB.id u)).
Proof.
  intro Hn.
  assert (F : forall u, In u (users db) -> UserDB.email u = LoginInput.email data ->
                find_user_by_email (LoginInput.email data) db = Some u).
  { intros u Hu He. rewrite <- He.
    apply (find_by_key pystr_eqb UserDB.email); [apply pystr_eqb_eq | assumption | assumption]. }
  split; [|split].
  - intro Hno. unfold login, bind, query, find_user_by_email.
    rewrite (find_none_intro _ (users db)); [reflexivity|].
    intros x Hx. destruct (pystr_eqb _ _) eqn:E; [|reflexivity].
    apply pystr_eqb_eq in E. exfalso. exact (Hno x Hx E).
  - intros u Hu He Hv. unfold login, bind, query. rewrite (F u Hu He). simpl.
    rewrite Hv. reflexivity.
  - intros u Hu He Hv Hc. unfold login, bind, query.
    rewrite (F u Hu He). simpl. rewrite Hv. unfold create_token.
    revert Hc. unfold env_configured.
    destruct (ACCESS_TOKEN_EXPIRE_MINUTES env) as [[|c e]|]; try contradiction.
    destruct (SECRET_KEY env) as [[|c' k]|]; try contradiction.
    destruct (ALGORITHM env) as [[|c'' a]|]; try contradiction.
    intros (H1 & H2 & H3). rewrite H1, H2, H3. eexists. split; reflexivity.
Qed.

Lemma login_outcomes_witness :
  exists tok, login Demo.verify_pwd Demo.token_lib Demo.env
                (LoginInput.mk (str_of "alice@example.com") (str_of "testpwd")) Demo.db0
              = (Ret tok, Demo.db0) /\ sub tok = py_str 1.
Proof.
  assert (Hn : NoDup (map UserDB.email (users Demo.db0)))
    by (simpl; repeat constructor; simpl; intuition discriminate).
  assert (Hc : env_configured Demo.token_lib Demo.env) by (repeat split).
  exact (proj2 (proj2 (login_outcomes Demo.verify_pwd Demo.token_lib Demo.env Demo.db0
            (LoginInput.mk (str_of "alice@example.com") (str_of "testpwd")) Hn))
          Demo.alice (or_introl eq_refl) eq_refl eq_refl Hc).
Defined.

(** C10: a login body whose password is a string of fewer than 7
    characters, or whose email is a string not matching the pattern, is
    answered 422 by the schema before [login] runs, never 401. *)
Theorem login_schema_checked_first hash verify tl env db b :
  ((exists p, lookup (str_of "password") b = Some (JStr p) /\ (List.length p < 7)%nat) \/
   (exists e, lookup (str_of "email") b = Some (JStr e) /\ email_pattern e = false)) ->
  handle hash verify tl env db (PostLogin b) = (mkResp 422 BValidationErrors, db) /\
  status (fst (handle hash verify tl env db (PostLogin b))) <> 401.
Proof.
  intro H.
  assert (V : validate_login_input b = None).
  { unfold validate_login_input. destruct (negb _); [reflexivity|].
    destruct H as [(p & Hp & Hl) | (e & He & Hm)].
    - rewrite Hp. cbn [option_map as_str].
      destruct (option_map as_str (lookup (str_of "email") b)) as [[e|]|]; [|reflexivity|reflexivity].
      replace (7 <=? List.length p)%nat with false by (symmetry; apply Nat.leb_gt; lia).
      rewrite !andb_false_r. reflexivity.
    - rewrite He. cbn [option_map as_str].
      destruct (option_map as_str (lookup (str_of "password") b)) as [[p|]|]; try reflexivity.
      rewrite Hm, andb_false_r. reflexivity. }
  assert (E : handle hash verify tl env db (PostLogin b) = (mkResp 422 BValidationErrors, db)).
  { simpl. unfold route, bind, validate. rewrite V. reflexivity. }
  rewrite E. split; [reflexivity | simpl; discriminate].
Qed.

Lemma login_schema_checked_first_witness :
  Demo.handle Demo.db0 (PostLogin (Demo.credentials "alice@example.com" "short"))
  = (mkResp 422 BValidationErrors, Demo.db0).
Proof.
  assert (H : exists p, lookup (str_of "password") (Demo.credentials "alice@example.com" "short")
                        = Some (JStr p) /\ (List.length p < 7)%nat)
    by (exists (str_of "short"); split; [reflexivity | simpl; lia]).
  exact (proj1 (login_schema_checked_first Demo.hash_pwd Demo.verify_pwd Demo.token_lib
                  Demo.env Demo.db0 _ (or_introl H))).
Defined.

(** C9, as amended: once the bearer token authenticates, a POST /tasks/
    body whose title has more than 50 characters is answered 422 and no
    task is created; a token that does not authenticate is answered by that
    failure, also without a task; a title of exactly 50 characters passes
    the schema. *)
Theorem create_task_title_limit hash verify tl env db tok b :
  (forall s, lookup (str_of "title") b = Some (JStr s) -> (50 < List.length s)%nat ->
     (forall user, oauth2_user env tok db = (Ret user, db) ->
        handle hash verify tl env db (PostTask tok b) = (mkResp 422 BValidationErrors, db)) /\
     (forall e, oauth2_user env tok db = (Raise e, db) ->
        handle hash verify tl env db (PostTask tok b) = (exn_response e, db))) /\
  (forall s z, List.length s = 50%nat -> 0 < z ->
     validate_input_task [(str_of "title", JStr s); (str_of "user_id", JInt z)]
     = Some (InputTask.mk s false z)).
Proof.
  split.
  - intros s Hs Hl.
    assert (V : validate_input_task b = None).
    { unfold validate_input_task. destruct (negb _); [reflexivity|].
      rewrite Hs. unfold validate_title. cbn [as_str].
      replace (List.length s <=? 50)%nat with false by (symmetry; apply Nat.leb_gt; lia).
      reflexivity. }
    split.
    + intros user Hu. simpl. unfold route, bind at 1. rewrite Hu.
      unfold bind, validate. rewrite V. reflexivity.
    + intros e He. simpl. unfold route, bind at 1. rewrite He. reflexivity.
  - intros s z Hl Hz. unfold validate_input_task. simpl.
    unfold validate_title. cbn [as_str]. rewrite Hl. simpl.
    rewrite (proj2 (Z.ltb_lt _ _) Hz). reflexivity.
Qed.

Lemma create_task_title_limit_witness :
  Demo.handle Demo.db0 (PostTask (Demo.token_of "1") (Demo.task_body (repeat 97 51) 1))
  = (mkResp 422 BValidationErrors, Demo.db0).
Proof.
  refine (proj1 (proj1 (create_task_title_limit Demo.hash_pwd Demo.verify_pwd Demo.token_lib
                          Demo.env Demo.db0 (Demo.token_of "1") (Demo.task_body (repeat 97 51) 1))
                       (repeat 97 51) _ _) Demo.alice _).
  - reflexivity.
  - simpl. lia.
  - reflexivity.
Defined.

(** C9, as stated, fails: an unauthenticated POST /tasks/ with a 51-character
    title is answered 401, not 422 (no task is created either). *)
Lemma create_task_long_title_unauthenticated :
  (50 < List.length (repeat 97 51))%nat /\
  Demo.handle Demo.db0 (PostTask None (Demo.task_body (repeat 97 51) 1))
  = (mkResp 401 (BDetail (detail "Not authenticated")), Demo.db0).
Proof. split; [simpl; lia | reflexivity]. Qed.

(** C1: the PUT handler writes the body's [user_id] without the checks that
    POST /tasks/ makes (the user exists; it is the caller), and SQLite does
    not enforce the foreign key: from an empty database, register a user,
    create a task for them, then PUT it with [user_id] 99. The PUT answers
    202 and the stored task references no user. *)
Theorem update_task_breaks_user_reference :
  fk_ok (Demo.run [PostRegister (Demo.credentials "alice@example.com" "testpwd");
                   PostTask (Demo.token_of "1") (Demo.task_body (str_of "Buy milk") 1)] empty_db) /\
  status (fst (Demo.handle
    (Demo.run [PostRegister (Demo.credentials "alice@example.com" "testpwd");
               PostTask (Demo.token_of "1") (Demo.task_body (str_of "Buy milk") 1)] empty_db)
    (PutTask (Demo.token_of "1") 1 (Demo.task_body (str_of "Buy milk") 99)))) = 202 /\
  ~ fk_ok (Demo.run [PostRegister (Demo.credentials "alice@example.com" "testpwd");
                     PostTask (Demo.token_of "1") (Demo.task_body (str_of "Buy milk") 1);
                     PutTask (Demo.token_of "1") 1 (Demo.task_body (str_of "Buy milk") 99)] empty_db).
Proof.
  split; [|split].
  - intros t Ht. vm_compute in Ht. destruct Ht as [<-|[]].
    eexists. split; [left; reflexivity | reflexivity].
  - vm_compute. reflexivity.
  - intro H. unfold fk_ok in H.
    assert (Ht : In (TaskDB.mk 1 (str_of "Buy milk") false 99)
                    (tasks (Demo.run [PostRegister (Demo.credentials "alice@example.com" "testpwd");
                     PostTask (Demo.token_of "1") (Demo.task_body (str_of "Buy milk") 1);
                     PutTask (Demo.token_of "1") 1 (Demo.task_body (str_of "Buy milk") 99)] empty_db)))
      by (vm_compute; left; reflexivity).
    destruct (H _ Ht) as (u & Hu & Hid). vm_compute in Hu.
    destruct Hu as [<-|[]]. discriminate.
Qed.

(** C3: [get_current_user] maps an expired token and an otherwise invalid
    one to distinct 401s, but a decodable payload whose [sub] is not a
    decimal integer makes [int(sub)] raise [ValueError], which no [except]
    clause catches: the request is answered 500. *)
Theorem get_current_user_non_integer_sub db :
  get_current_user Demo.env JoseExpired db
    = (Raise (HTTPException 401 (detail "Token expired")), db) /\
  get_current_user Demo.env JoseInvalid db
    = (Raise (HTTPException 401 (detail "Invalid token")), db) /\
  get_current_user Demo.env (JosePayload (Some (str_of "abc"))) db = (Raise ValueError, db) /\
  fst (Demo.handle db (GetTasks (Some (JosePayload (Some (str_of "abc"))))))
    = mkResp 500 BInternalError.
Proof. repeat split. Qed.

(** ** Rows written through the API satisfy the response model *)

Lemma keeps_valid_read_only {A} (m : M A) : read_only m -> keeps_valid m.
Proof. intros H db Hv. rewrite H. exact Hv. Qed.

Lemma keeps_valid_bind {A B} (m : M A) (k : A -> M B) :
  keeps_valid m -> (forall a, keeps_valid (k a)) -> keeps_valid (bind m k).
Proof.
  intros Hm Hk db Hv. unfold bind. specialize (Hm db Hv).
  destruct (m db) as [[a|e] d]; simpl in *; [apply Hk|]; exact Hm.
Qed.

Lemma keeps_valid_validate {A B} (v : option A) (k : A -> M B) :
  (forall a, v = Some a -> keeps_valid (k a)) -> keeps_valid (bind (validate v) k).
Proof.
  intros Hk db Hv. unfold bind, validate. destruct v as [a|]; [apply (Hk a eq_refl); exact Hv | exact Hv].
Qed.

Lemma validate_input_task_valid b it : validate_input_task b = Some it -> input_valid it.
Proof.
  unfold validate_input_task. destruct (negb _); [discriminate|].
  destruct (validate_title _) as [ti|] eqn:Et; [|discriminate].
  destruct (validate_completed _) as [c|]; [|discriminate].
  destruct (validate_user_id _) as [u|] eqn:Eu; [|discriminate].
  intro E; injection E as <-. unfold input_valid; simpl. split.
  - unfold validate_title in Et. destruct (lookup (str_of "title") b) as [j|]; [|discriminate].
    destruct (as_str j) as [s|]; [|discriminate].
    destruct (List.length s <=? 50)%nat eqn:L; [|discriminate].
    injection Et as <-. apply Nat.leb_le, L.
  - unfold validate_user_id in Eu. destruct (lookup (str_of "user_id") b) as [j|]; [|discriminate].
    destruct (as_int j) as [z|]; [|discriminate].
    destruct (0 <? z) eqn:L; [|discriminate]. injection Eu as <-. apply Z.ltb_lt, L.
Qed.

Lemma fold_max_ge l a : a <= fold_left Z.max l a.
Proof. revert a; induction l as [|x l IH]; simpl; intro a; [lia|]. specialize (IH (Z.max a x)). lia. Qed.

Lemma fold_max_bound l a x : In x l -> x <= fold_left Z.max l a.
Proof.
  revert a. induction l as [|y l IH]; simpl; intros a H; [contradiction|].
  destruct H as [->|H].
  - pose proof (fold_max_ge l (Z.max a x)). lia.
  - apply IH, H.
Qed.

Lemma free_rowid_spec f c ids r :
  free_rowid f c ids = Some r -> c <= r /\ ~ In r ids.
Proof.
  revert c. induction f as [|f IH]; simpl; intros c E; [discriminate|].
  destruct (ROWID_MAX <? c); [discriminate|].
  destruct (existsb (Z.eqb c) ids) eqn:Ex.
  - apply IH in E as [Hc Hn]. split; [lia | exact Hn].
  - injection E as <-. split; [lia|]. intro Hin.
    assert (existsb (Z.eqb c) ids = true) by (apply existsb_exists; exists c; split; [exact Hin | apply Z.eqb_refl]).
    congruence.
Qed.

(** The rowid SQLite gives a new row is no row's. *)
Lemma next_rowid_fresh ids r : next_rowid ids = Some r -> ~ In r ids.
Proof.
  destruct ids as [|i is]; unfold next_rowid; cbv zeta; intro E; [injection E as <-; auto|].
  destruct (fold_left Z.max is i <? ROWID_MAX).
  - injection E as <-. intros [H|H].
    + pose proof (fold_max_ge is i). lia.
    + pose proof (fold_max_bound is i _ H). lia.
  - exact (proj2 (free_rowid_spec _ _ _ _ E)).
Qed.

Lemma next_rowid_pos ids r : Forall (fun i => 0 < i) ids -> next_rowid ids = Some r -> 0 < r.
Proof.
  destruct ids as [|i is]; unfold next_rowid; cbv zeta; intros H E; [injection E as <-; lia|].
  inversion H; subst.
  destruct (fold_left Z.max is i <? ROWID_MAX).
  - injection E as <-. pose proof (fold_max_ge is i). lia.
  - pose proof (proj1 (free_rowid_spec _ _ _ _ E)). lia.
Qed.

(** Below [ROWID_MAX], the new rowid is larger than every rowid of the
    table. *)
Lemma next_rowid_above ids :
  Forall (fun i => i < ROWID_MAX) ids ->
  exists r, next_rowid ids = Some r /\ Forall (fun i => i < r) ids.
Proof.
  destruct ids as [|i is]; intro H; [exists 1; split; [reflexivity | constructor]|].
  unfold next_rowid; cbv zeta. exists (fold_left Z.max is i + 1).
  assert (Hm : fold_left Z.max is i < ROWID_MAX).
  { assert (G : forall l a, a < ROWID_MAX -> Forall (fun i => i < ROWID_MAX) l ->
                 fold_left Z.max l a < ROWID_MAX).
    { induction l as [|y l IH]; simpl; intros a Ha Hl; [exact Ha|].
      inversion Hl; subst. apply IH; [lia | assumption]. }
    inversion H; subst. apply G; assumption. }
  rewrite (proj2 (Z.ltb_lt _ _) Hm). split; [reflexivity|].
  apply Forall_forall. intros x [->|Hx].
  - pose proof (fold_max_ge is x). lia.
  - pose proof (fold_max_bound is i x Hx). lia.
Qed.

Lemma ids_pos db : Forall task_valid (tasks db) -> Forall (fun i => 0 < i) (map TaskDB.id (tasks db)).
Proof.
  intro H. apply Forall_map. eapply Forall_impl; [|exact H]. intros r (Hr & _). exact Hr.
Qed.

Lemma keeps_valid_create_task task user : input_valid task -> keeps_valid (create_task task user).
Proof.
  intros (Ht & Hu). unfold create_task. apply keeps_valid_bind; [apply keeps_valid_read_only, ro_query|].
  intros [u|]; [|apply keeps_valid_read_only, ro_raise].
  destruct (negb _); [apply keeps_valid_read_only, ro_raise|].
  apply keeps_valid_bind; [|intro; apply keeps_valid_read_only, ro_to_output].
  intros db Hv. unfold add_task. destruct (next_rowid _) as [i|] eqn:Ei; [|exact Hv].
  simpl. apply Forall_app. split; [exact Hv|]. constructor; [|constructor].
  repeat split; simpl; try assumption. exact (next_rowid_pos _ _ (ids_pos _ Hv) Ei).
Qed.

Lemma keeps_valid_delete_task i user : keeps_valid (delete_task i user).
Proof.
  unfold delete_task. apply keeps_valid_bind; [apply keeps_valid_read_only, ro_query|].
  intros [t|]; [|apply keeps_valid_read_only, ro_raise].
  destruct (negb _); [apply keeps_valid_read_only, ro_raise|].
  apply keeps_valid_bind; [|intro; apply keeps_valid_read_only, ro_to_output].
  intros db Hv. simpl. apply Forall_forall. intros x Hx. apply filter_In in Hx as [Hx _].
  exact (proj1 (Forall_forall _ _) Hv x Hx).
Qed.

Lemma keeps_valid_update_task i task user : input_valid task -> keeps_valid (update_task i task user).
Proof.
  intros (Ht & Hu) db Hv. unfold update_task, bind at 1, query.
  destruct (find_task i db) as [p|] eqn:F; [|exact Hv].
  destruct (negb _); [exact Hv|].
  unfold bind, commit. rewrite (ro_to_output _ _). simpl.
  apply find_some in F as [Hp _]. pose proof (proj1 (Forall_forall _ _) Hv p Hp) as (Hpid & _).
  apply Forall_forall. intros x Hx. apply in_map_iff in Hx as (r & <- & Hr).
  destruct (_ =? _); [repeat split; simpl; assumption|].
  exact (proj1 (Forall_forall _ _) Hv r Hr).
Qed.

Lemma keeps_valid_register hash tl env data : keeps_valid (register hash tl env data).
Proof.
  unfold register. apply keeps_valid_bind; [apply keeps_valid_read_only, ro_query|].
  intros [u|]; [apply keeps_valid_read_only, ro_raise|].
  destruct (hash _) as [h|]; [|apply keeps_valid_read_only, ro_raise].
  apply keeps_valid_bind; [|intro; apply keeps_valid_read_only, ro_create_token].
  intros db Hv. unfold add_user. destruct (next_rowid _); exact Hv.
Qed.

Lemma handle_keeps_valid hash verify tl env db r :
  Forall task_valid (tasks db) -> Forall task_valid (tasks (snd (handle hash verify tl env db r))).
Proof.
  assert (R : forall A code (out : A -> RBody) m, keeps_valid m ->
              Forall task_valid (tasks db) -> Forall task_valid (tasks (snd (route code out m db)))).
  { intros A code out m Hm Hv. unfold route. specialize (Hm db Hv).
    destruct (m db) as [[a|e] d]; exact Hm. }
  destruct r as [| b | b | tok i | tok b | tok i | tok i b | tok]; simpl handle; intro Hv;
    try (apply R; [|exact Hv]).
  - exact Hv.
  - apply keeps_valid_read_only, ro_bind; [apply ro_validate | intro; apply ro_login].
  - apply keeps_valid_validate. intros; apply keeps_valid_register.
  - apply keeps_valid_read_only, ro_bind; [apply ro_oauth2_user|]. intro.
    apply ro_bind; [apply ro_validate | intro; apply ro_get_task].
  - apply keeps_valid_bind; [apply keeps_valid_read_only, ro_oauth2_user|]. intro.
    apply keeps_valid_validate. intros it E. apply keeps_valid_create_task.
    exact (validate_input_task_valid _ _ E).
  - apply keeps_valid_bind; [apply keeps_valid_read_only, ro_oauth2_user|]. intro.
    apply keeps_valid_validate. intros; apply keeps_valid_delete_task.
  - apply keeps_valid_bind; [apply keeps_valid_read_only, ro_oauth2_user|]. intro.
    apply keeps_valid_validate. intros it E. apply keeps_valid_update_task.
    destruct (0 <? i); [exact (validate_input_task_valid _ _ E) | discriminate].
  - apply keeps_valid_read_only, ro_bind; [apply ro_oauth2_user | intro; apply ro_get_tasks].
Qed.

(** Through any sequence of requests, every stored task keeps a positive
    id, a title of at most 50 code points and a positive [user_id], so the
    [OutputTask] response model accepts every row the API returns. *)
Theorem run_keeps_valid hash verify tl env rs db :
  Forall task_valid (tasks db) -> Forall task_valid (tasks (run hash verify tl env rs db)).
Proof.
  revert db. induction rs as [|r rs IH]; simpl; intros db Hv; [exact Hv|].
  apply IH, handle_keeps_valid, Hv.
Qed.

(** ** [str] and [int] on user ids *)

Lemma parse_digits_all_digits l a b :
  forallb is_digit l = true ->
  parse_digits l a b = match l, b with [], false => None | _, _ => Some (fold_left digit_step l a) end.
Proof.
  revert a b. induction l as [|c l IH]; intros a b H; [destruct b; reflexivity|].
  simpl in H. apply andb_prop in H as [Hc Hl]. simpl. rewrite Hc, IH by exact Hl.
  destruct l; reflexivity.
Qed.

Lemma digits_aux_digits f n acc :
  forallb is_digit acc = true -> 0 <= n -> forallb is_digit (digits_aux f n acc) = true.
Proof.
  revert n acc. induction f as [|f IH]; intros n acc Hacc Hn; cbn [digits_aux]; [exact Hacc|].
  assert (Hd : is_digit (48 + n mod 10) = true).
  { unfold is_digit, in_range. pose proof (Z.mod_pos_bound n 10 ltac:(lia)).
    apply andb_true_intro; split; apply Z.leb_le; lia. }
  destruct (n <? 10).
  - cbn [forallb]. rewrite Hd, Hacc. reflexivity.
  - apply IH; [cbn [forallb]; rewrite Hd, Hacc; reflexivity | apply Z.div_pos; lia].
Qed.

Lemma digits_aux_value f n acc :
  0 <= n -> n < 10 ^ Z.of_nat f ->
  fold_left digit_step (digits_aux f n acc) 0 = fold_left digit_step acc n.
Proof.
  revert n acc. induction f as [|f IH]; intros n acc Hn Hf; cbn [digits_aux].
  - assert (n = 0) as -> by (cbn in Hf; lia). reflexivity.
  - destruct (n <? 10) eqn:E.
    + apply Z.ltb_lt in E. cbn [fold_left].
      replace (digit_step 0 (48 + n mod 10)) with n; [reflexivity|].
      unfold digit_step. rewrite Z.mod_small by lia. lia.
    + apply Z.ltb_ge in E. rewrite IH.
      * cbn [fold_left]. f_equal. unfold digit_step.
        pose proof (Z.div_mod n 10 ltac:(lia)). lia.
      * apply Z.div_pos; lia.
      * apply Z.div_lt_upper_bound; [lia|].
        rewrite Nat2Z.inj_succ, Z.pow_succ_r in Hf by lia. lia.
Qed.

Lemma digits_aux_nonempty f n acc : digits_aux (S f) n acc <> [].
Proof.
  revert n acc. induction f as [|f IH]; intros n acc; simpl;
    destruct (n <? 10); try discriminate. apply IH.
Qed.

Lemma fuel_enough n : 0 <= n -> n < 10 ^ Z.of_nat (S (Z.to_nat (Z.log2 n))).
Proof.
  intro Hn. rewrite Nat2Z.inj_succ, Z2Nat.id by apply Z.log2_nonneg.
  destruct (Z.eq_dec n 0) as [->|Hn0]; [simpl; lia|].
  pose proof (Z.log2_spec n ltac:(lia)) as [_ H].
  eapply Z.lt_le_trans; [exact H|].
  apply Z.pow_le_mono_l. lia.
Qed.

Lemma strip_no_space s : forallb (fun c => negb (is_space c)) s = true -> strip s = s.
Proof.
  intro H. unfold strip.
  assert (D : forall l, forallb (fun c => negb (is_space c)) l = true -> drop_space l = l).
  { intros [|c l] Hl; [reflexivity|]. simpl in Hl. apply andb_prop in Hl as [Hc _].
    simpl. apply negb_true_iff in Hc. rewrite Hc. reflexivity. }
  rewrite (D s H), D; [apply rev_involutive|].
  apply forallb_forall. intros x Hx. apply in_rev in Hx.
  exact (proj1 (forallb_forall _ _) H x Hx).
Qed.

Lemma digits_no_space l : forallb is_digit l = true -> forallb (fun c => negb (is_space c)) l = true.
Proof.
  intro H. apply forallb_forall. intros x Hx. pose proof (proj1 (forallb_forall _ _) H x Hx) as D.
  unfold is_digit, is_space, in_range in *. apply andb_prop in D as [D1 D2].
  apply Z.leb_le in D1. apply Z.leb_le in D2. apply negb_true_iff.
  apply orb_false_intro; [apply andb_false_intro2; apply Z.leb_gt; lia | apply Z.eqb_neq; lia].
Qed.

Lemma digits_value n :
  0 <= n ->
  let ds := digits_aux (S (Z.to_nat (Z.log2 n))) n [] in
  ds <> [] /\ forallb is_digit ds = true /\ fold_left digit_step ds 0 = n.
Proof.
  intros Hn ds. split; [apply digits_aux_nonempty|]. split.
  - apply digits_aux_digits; [reflexivity | exact Hn].
  - unfold ds. rewrite digits_aux_value; [reflexivity | exact Hn | apply fuel_enough, Hn].
Qed.

Lemma py_int_of_py_str z : py_int (py_str z) = Some z.
Proof.
  unfold py_str. destruct (z <? 0) eqn:E.
  - apply Z.ltb_lt in E. destruct (digits_value (- z) ltac:(lia)) as (Hne & Hd & Hv).
    set (ds := digits_aux _ (- z) []) in *.
    assert (P : py_int (45 :: ds) = option_map Z.opp (parse_digits ds 0 false)).
    { unfold py_int. rewrite strip_no_space; [reflexivity|].
      cbn [forallb]. rewrite digits_no_space by exact Hd. reflexivity. }
    rewrite P, parse_digits_all_digits by exact Hd.
    destruct ds as [|c ds']; [contradiction|]. cbn [option_map]. rewrite Hv. f_equal. lia.
  - apply Z.ltb_ge in E. destruct (digits_value z E) as (Hne & Hd & Hv).
    set (ds := digits_aux _ z []) in *.
    unfold py_int. rewrite strip_no_space by apply digits_no_space, Hd.
    destruct ds as [|c ds'] eqn:Eds; [contradiction|].
    simpl in Hd. apply andb_prop in Hd as [Hc Hd'].
    unfold is_digit, in_range in Hc. apply andb_prop in Hc as [Hc1 Hc2].
    apply Z.leb_le in Hc1. apply Z.leb_le in Hc2.
    rewrite (proj2 (Z.eqb_neq c 45)) by lia. rewrite (proj2 (Z.eqb_neq c 43)) by lia.
    rewrite parse_digits_all_digits by (simpl; unfold is_digit, in_range;
      rewrite (proj2 (Z.leb_le _ _) Hc1), (proj2 (Z.leb_le _ _) Hc2); exact Hd').
    rewrite Hv. reflexivity.
Qed.

(** [int(str(z)) == z]: the subject [create_token] writes, [str(id)], is
    read back by [get_current_user]'s [int(sub)] as the same id, for every
    integer, negative ones included. *)
Theorem py_int_py_str z : py_int (py_str z) = Some z.
Proof. exact (py_int_of_py_str z). Qed.

Lemma create_token_ret tl env i db tok d :
  create_token tl env i db = (Ret tok, d) ->
  sub tok = py_str i /\ truthy (SECRET_KEY env) = true /\ truthy (ALGORITHM env) = true /\ d = db.
Proof.
  unfold create_token.
  destruct (ACCESS_TOKEN_EXPIRE_MINUTES env) as [[|]|], (SECRET_KEY env) as [[|]|],
    (ALGORITHM env) as [[|]|]; token_cases tl; unfold ret, raise; intro E;
    try discriminate.
  injection E as <- <-. repeat split.
Qed.

Lemma py_str_nonempty z : py_str z <> [].
Proof.
  unfold py_str. destruct (z <? 0); [discriminate | apply digits_aux_nonempty].
Qed.

Lemma login_ret verify tl env data db tok d :
  login verify tl env data db = (Ret tok, d) ->
  exists u, find_user_by_email (LoginInput.email data) db = Some u /\
            create_token tl env (UserDB.id u) db = (Ret tok, d).
Proof.
  unfold login, bind at 1, query.
  destruct (find_user_by_email _ db) as [u|]; [|discriminate].
  destruct (verify _ _) as [[|]|]; try discriminate.
  intro E. exists u. split; [reflexivity | exact E].
Qed.

(** A token issued for a stored user authenticates that user: when jose
    hands back the payload [create_token] wrote, [get_current_user] resolves
    its subject to the same row (user ids being unique). *)
Theorem create_token_authenticates tl env db u tok d :
  NoDup (map UserDB.id (users db)) -> In u (users db) ->
  create_token tl env (UserDB.id u) db = (Ret tok, d) ->
  get_current_user env (JosePayload (Some (sub tok))) db = (Ret u, db).
Proof.
  intros Hn Hu E. apply create_token_ret in E as (Hs & Hk & Ha & _). rewrite Hs.
  assert (F : find_user_by_id (UserDB.id u) db = Some u)
    by (apply (find_by_key Z.eqb UserDB.id); [apply Z.eqb_eq | exact Hn | exact Hu]).
  unfold get_current_user, decode_token, try_except, bind, query. rewrite Hk, Ha. simpl.
  destruct (py_str (UserDB.id u)) as [|c s] eqn:Ep; [exfalso; exact (py_str_nonempty _ Ep)|].
  rewrite <- Ep, py_int_of_py_str. simpl. rewrite F. reflexivity.
Qed.

(** The token POST /login returns authenticates, on the same database, the
    user whose email was given. *)
Theorem login_token_authenticates verify tl env db data tok d :
  NoDup (map UserDB.id (users db)) ->
  login verify tl env data db = (Ret tok, d) ->
  exists u, In u (users db) /\ UserDB.email u = LoginInput.email data /\
            get_current_user env (JosePayload (Some (sub tok))) db = (Ret u, db).
Proof.
  intros Hn E. apply login_ret in E as (u & F & E).
  unfold find_user_by_email in F. apply find_some in F as [Hu He].
  apply pystr_eqb_eq in He.
  exists u. split; [exact Hu | split; [exact He|]].
  exact (create_token_authenticates tl env db u tok d Hn Hu E).
Qed.

Lemma login_token_authenticates_witness :
  exists tok, login Demo.verify_pwd Demo.token_lib Demo.env
                (LoginInput.mk (str_of "alice@example.com") (str_of "testpwd")) Demo.db0
              = (Ret tok, Demo.db0) /\
    get_current_user Demo.env (JosePayload (Some (sub tok))) Demo.db0 = (Ret Demo.alice, Demo.db0).
Proof.
  assert (Hn : NoDup (map UserDB.id (users Demo.db0)))
    by (simpl; repeat constructor; simpl; intuition discriminate).
  set (tok := mkToken (py_str 1) (str_of "30") (str_of "change-me") (str_of "HS256")).
  assert (E : login Demo.verify_pwd Demo.token_lib Demo.env
                (LoginInput.mk (str_of "alice@example.com") (str_of "testpwd")) Demo.db0
              = (Ret tok, Demo.db0)) by reflexivity.
  exists tok. split; [exact E|].
  destruct (login_token_authenticates _ _ _ _ _ _ _ Hn E) as (u & Hu & He & G).
  simpl in Hu. destruct Hu as [<-|[<-|[]]]; [exact G | discriminate He].
Defined.

(** ** Authentication failures and registration *)

(** [get_current_user] beyond the jose errors: without [SECRET_KEY] or
    [ALGORITHM] every token fails the assertion of [decode_token] (a 500);
    with them, a payload without a subject, or with an empty one, is a 401
    "Invalid token payload", and an integer subject that is no stored
    user's id is a 401 "Error fetching user", when the driver can bind it
    (a signed 64-bit integer) and [int()] reads it (at most 4300
    characters, within Python's limit on digits). *)
Theorem get_current_user_failures env db :
  (truthy (SECRET_KEY env) && truthy (ALGORITHM env) = false ->
     forall tok, get_current_user env tok db = (Raise AssertionError, db)) /\
  (truthy (SECRET_KEY env) && truthy (ALGORITHM env) = true ->
     get_current_user env (JosePayload None) db
       = (Raise (HTTPException 401 (detail "Invalid token payload")), db) /\
     get_current_user env (JosePayload (Some [])) db
       = (Raise (HTTPException 401 (detail "Invalid token payload")), db) /\
     (forall s z, s <> [] -> (List.length s <= 4300)%nat -> py_int s = Some z -> int64_range z ->
        (forall u, In u (users db) -> UserDB.id u <> z) ->
        get_current_user env (JosePayload (Some s)) db
        = (Raise (HTTPException 401 (detail "Error fetching user")), db))).
Proof.
  split.
  - intros H tok. unfold get_current_user, decode_token, try_except, bind. rewrite H. reflexivity.
  - intro H. unfold get_current_user, decode_token, try_except, bind, query. rewrite H.
    split; [reflexivity | split; [reflexivity|]].
    intros s z Hs _ Hz _ Hu. destruct s as [|c s]; [contradiction|]. simpl. rewrite Hz.
    unfold ret. cbn beta iota zeta. unfold find_user_by_id.
    rewrite find_none_intro; [reflexivity|].
    intros x Hx. apply Z.eqb_neq, Hu, Hx.
Qed.

Lemma get_current_user_failures_witness :
  get_current_user Demo.env (JosePayload (Some (str_of "7"))) Demo.db0
  = (Raise (HTTPException 401 (detail "Error fetching user")), Demo.db0).
Proof.
  apply (proj2 (proj2 (get_current_user_failures Demo.env Demo.db0) eq_refl))
    with (z := 7); [discriminate | simpl; lia | reflexivity | unfold int64_range, ROWID_MAX; lia |].
  intros u Hu. simpl in Hu. destruct Hu as [<-|[<-|[]]]; discriminate.
Defined.

Lemma find_exists {A} (f : A -> bool) l x : In x l -> f x = true -> exists y, find f l = Some y.
Proof.
  induction l as [|a l IH]; simpl; intros H Hf; [contradiction|].
  destruct (f a) eqn:Ea; [eexists; reflexivity|].
  destruct H as [<-|H]; [congruence | exact (IH H Hf)].
Qed.

Lemma find_app_none {A} (f : A -> bool) l1 l2 :
  find f l1 = None -> find f (l1 ++ l2) = find f l2.
Proof.
  induction l1 as [|a l1 IH]; simpl; intro H; [reflexivity|].
  destruct (f a); [discriminate | exact (IH H)].
Qed.

Lemma create_token_any_state tl env i db r d :
  create_token tl env i db = (r, d) -> forall db', create_token tl env i db' = (r, db').
Proof.
  unfold create_token.
  destruct (ACCESS_TOKEN_EXPIRE_MINUTES env) as [[|]|], (SECRET_KEY env) as [[|]|],
    (ALGORITHM env) as [[|]|]; token_cases tl; unfold ret, raise; intro E;
    injection E as <- _; reflexivity.
Qed.

(** POST /register: an email some stored user has is refused with 422 and
    nothing is written. A new email whose password bcrypt hashes, with the
    token settings working and every user id below [ROWID_MAX], is stored
    with the hash under a rowid larger than every user id, and the returned
    token's subject is that id. *)
Theorem register_outcomes hash tl env db data :
  ((exists u, In u (users db) /\ UserDB.email u = LoginInput.email data) ->
     register hash tl env data db
     = (Raise (HTTPException 422 (detail "Email already registered")), db)) /\
  (forall h,
     (forall u, In u (users db) -> UserDB.email u <> LoginInput.email data) ->
     hash (LoginInput.password data) = Some h ->
     env_configured tl env ->
     Forall (fun i => i < ROWID_MAX) (map UserDB.id (users db)) ->
     exists i tok,
       register hash tl env data db
       = (Ret tok, mkDB (users db ++ [UserDB.mk i (LoginInput.email data) h]) (tasks db))
       /\ sub tok = py_str i
       /\ Forall (fun j => j < i) (map UserDB.id (users db))).
Proof.
  split.
  - intros (u & Hu & He). unfold register, bind at 1, query.
    destruct (find_exists (fun u => pystr_eqb (UserDB.email u) (LoginInput.email data))
                (users db) u Hu) as (y & Hy); [apply pystr_eqb_eq, He|].
    unfold find_user_by_email. rewrite Hy. reflexivity.
  - intros h Hno Hh Hc Hmax.
    destruct (next_rowid_above _ Hmax) as (i & Ei & Hi).
    exists i. unfold register, bind at 1, query, find_user_by_email.
    rewrite find_none_intro.
    2:{ intros x Hx. destruct (pystr_eqb _ _) eqn:E; [|reflexivity].
        apply pystr_eqb_eq in E. exfalso; exact (Hno x Hx E). }
    cbv beta iota zeta. rewrite Hh. unfold bind, add_user. rewrite Ei.
    cbv beta iota zeta. unfold create_token. revert Hc. unfold env_configured.
    destruct (ACCESS_TOKEN_EXPIRE_MINUTES env) as [[|c e]|]; try contradiction.
    destruct (SECRET_KEY env) as [[|c' k]|]; try contradiction.
    destruct (ALGORITHM env) as [[|c'' a]|]; try contradiction.
    intros (H1 & H2 & H3). rewrite H1, H2, H3. cbn [negb].
    eexists. split; [reflexivity|]. split; [reflexivity | exact Hi].
Qed.

Lemma register_outcomes_witness :
  exists i tok,
    register Demo.hash_pwd Demo.token_lib Demo.env
      (LoginInput.mk (str_of "carol@example.com") (str_of "testpwd")) Demo.db0
    = (Ret tok, mkDB (users Demo.db0 ++ [UserDB.mk i (str_of "carol@example.com") (str_of "testpwd")])
                     (tasks Demo.db0))
    /\ sub tok = py_str i /\ Forall (fun j => j < i) (map UserDB.id (users Demo.db0)).
Proof.
  apply (proj2 (register_outcomes Demo.hash_pwd Demo.token_lib Demo.env Demo.db0
                  (LoginInput.mk (str_of "carol@example.com") (str_of "testpwd")))
           (str_of "testpwd")).
  - intros u Hu. simpl in Hu. destruct Hu as [<-|[<-|[]]]; discriminate.
  - reflexivity.
  - repeat split.
  - repeat constructor.
Defined.

(** POST /register commits the new user before it creates the token: for
    a new email whose password bcrypt hashes, when [SECRET_KEY] is unset,
    the request ends in a 500 and the user stays stored with the hash. *)
Theorem register_commits_before_token hash verify tl env db b data h i :
  validate_login_input b = Some data ->
  (forall u, In u (users db) -> UserDB.email u <> LoginInput.email data) ->
  hash (LoginInput.password data) = Some h ->
  next_rowid (map UserDB.id (users db)) = Some i ->
  truthy (SECRET_KEY env) = false ->
  handle hash verify tl env db (PostRegister b)
  = (mkResp 500 BInternalError,
     mkDB (users db ++ [UserDB.mk i (LoginInput.email data) h]) (tasks db)).
Proof.
  intros V Hno Hh Ei Hk. simpl. unfold route, bind at 1, validate. rewrite V.
  unfold ret at 1. cbv beta iota zeta.
  unfold register, bind at 1, query, find_user_by_email.
  rewrite find_none_intro.
  2:{ intros x Hx. destruct (pystr_eqb _ _) eqn:E; [|reflexivity].
      apply pystr_eqb_eq in E. exfalso; exact (Hno x Hx E). }
  cbv beta iota zeta. rewrite Hh. unfold bind, add_user. rewrite Ei.
  cbv beta iota zeta. unfold create_token.
  destruct (SECRET_KEY env) as [[|c k]|]; [| discriminate |];
    destruct (ACCESS_TOKEN_EXPIRE_MINUTES env) as [[|]|]; reflexivity.
Qed.

Lemma register_commits_before_token_witness :
  handle Demo.hash_pwd Demo.verify_pwd Demo.token_lib
    (mkEnv (Some (str_of "30")) None (Some (str_of "HS256"))) Demo.db0
    (PostRegister (Demo.credentials "carol@example.com" "testpwd"))
  = (mkResp 500 BInternalError,
     mkDB (users Demo.db0 ++ [UserDB.mk 3 (str_of "carol@example.com") (str_of "testpwd")])
          (tasks Demo.db0)).
Proof.
  apply (register_commits_before_token Demo.hash_pwd Demo.verify_pwd Demo.token_lib
           (mkEnv (Some (str_of "30")) None (Some (str_of "HS256"))) Demo.db0
           (Demo.credentials "carol@example.com" "testpwd")
           (LoginInput.mk (str_of "carol@example.com") (str_of "testpwd"))
           (str_of "testpwd") 3).
  - reflexivity.
  - intros u Hu. simpl in Hu. destruct Hu as [<-|[<-|[]]]; discriminate.
  - reflexivity.
  - reflexivity.
  - reflexivity.
Defined.

(** POST /register with a new email and a password passlib refuses (over
    4096 characters, or with a NUL) answers 500 and stores nothing: the
    hash is taken before [db.add]. *)
Theorem register_refused_secret_500 hash verify tl env db b data :
  (forall p, passlib_accepts p = false -> hash p = None) ->
  validate_login_input b = Some data ->
  (forall u, In u (users db) -> UserDB.email u <> LoginInput.email data) ->
  passlib_accepts (LoginInput.password data) = false ->
  handle hash verify tl env db (PostRegister b) = (mkResp 500 BInternalError, db).
Proof.
  intros Hpl V Hno Hp. simpl. unfold route, bind at 1, validate. rewrite V.
  unfold ret at 1. cbv beta iota zeta.
  unfold register, bind at 1, query, find_user_by_email.
  rewrite find_none_intro.
  2:{ intros x Hx. destruct (pystr_eqb _ _) eqn:E; [|reflexivity].
      apply pystr_eqb_eq in E. exfalso; exact (Hno x Hx E). }
  cbv beta iota zeta. rewrite (Hpl _ Hp). reflexivity.
Qed.

Lemma register_refused_secret_500_witness :
  Demo.handle Demo.db0 (PostRegister (Demo.credentials_with "carol@example.com" Demo.long_password))
  = (mkResp 500 BInternalError, Demo.db0).
Proof.
  apply (register_refused_secret_500 Demo.hash_pwd Demo.verify_pwd Demo.token_lib Demo.env Demo.db0 _
           (LoginInput.mk (str_of "carol@example.com") Demo.long_password)).
  - intros p Hp. unfold Demo.hash_pwd. rewrite Hp. reflexivity.
  - vm_compute. reflexivity.
  - intros u Hu. simpl in Hu. destruct Hu as [<-|[<-|[]]]; discriminate.
  - vm_compute. reflexivity.
Defined.

(** Registering and then logging in with the same credentials, when bcrypt
    verifies the password against the hash registration stored, answers
    with a token for the same user: its subject is the subject of the token
    registration returned. *)
Theorem register_then_login hash verify tl env db data tok db1 :
  (forall h, hash (LoginInput.password data) = Some h ->
             verify (LoginInput.password data) h = Some true) ->
  register hash tl env data db = (Ret tok, db1) ->
  exists tok', login verify tl env data db1 = (Ret tok', db1) /\ sub tok' = sub tok.
Proof.
  intros Hv. unfold register, bind at 1, query.
  destruct (find_user_by_email (LoginInput.email data) db) eqn:F; [discriminate|].
  cbv beta iota zeta.
  destruct (hash (LoginInput.password data)) as [h|] eqn:Hh; [|discriminate].
  unfold bind at 1, add_user.
  destruct (next_rowid (map UserDB.id (users db))) as [i|]; [|discriminate].
  cbv beta iota zeta. intro E.
  pose proof E as E0. apply create_token_ret in E0 as (Hs & _ & _ & ->).
  exists tok. split; [|reflexivity].
  unfold login, bind, query, find_user_by_email. cbn [users].
  unfold find_user_by_email in F. rewrite find_app_none by exact F.
  simpl. destruct (pystr_eqb (LoginInput.email data) (LoginInput.email data)) eqn:Ee;
    [| rewrite (proj2 (pystr_eqb_eq _ _) eq_refl) in Ee; discriminate].
  simpl. rewrite (Hv h eq_refl). simpl.
  exact (create_token_any_state _ _ _ _ _ _ E _).
Qed.

Lemma register_then_login_witness :
  exists tok db1 tok',
    register Demo.hash_pwd Demo.token_lib Demo.env
      (LoginInput.mk (str_of "carol@example.com") (str_of "testpwd")) Demo.db0 = (Ret tok, db1) /\
    login Demo.verify_pwd Demo.token_lib Demo.env
      (LoginInput.mk (str_of "carol@example.com") (str_of "testpwd")) db1 = (Ret tok', db1) /\
    sub tok' = sub tok.
Proof.
  assert (E : register Demo.hash_pwd Demo.token_lib Demo.env
      (LoginInput.mk (str_of "carol@example.com") (str_of "testpwd")) Demo.db0
      = (Ret (mkToken (py_str 3) (str_of "30") (str_of "change-me") (str_of "HS256")),
         mkDB (users Demo.db0 ++ [UserDB.mk 3 (str_of "carol@example.com") (str_of "testpwd")])
              (tasks Demo.db0))) by reflexivity.
  assert (Hv : forall h, Demo.hash_pwd (str_of "testpwd") = Some h ->
                         Demo.verify_pwd (str_of "testpwd") h = Some true).
  { intros h Hh. injection Hh as <-. reflexivity. }
  destruct (register_then_login Demo.hash_pwd Demo.verify_pwd Demo.token_lib Demo.env Demo.db0
              (LoginInput.mk (str_of "carol@example.com") (str_of "testpwd")) _ _ Hv E)
    as (tok' & L & Hs).
  do 3 eexists. split; [exact E | split; [exact L | exact Hs]].
Defined.

(** ** Tasks: creation, listing, update and deletion *)

Lemma to_output_any_state r db o d :
  to_output r db = (Ret o, d) -> forall db', to_output r db' = (Ret o, db').
Proof.
  unfold to_output. destruct (_ && _ && _); unfold ret, raise; intro E;
    [injection E as <- _; reflexivity | discriminate].
Qed.


Lemma create_task_ret task user db o db1 :
  create_task task user db = (Ret o, db1) ->
  exists i r, next_rowid (map TaskDB.id (tasks db)) = Some i
    /\ r = TaskDB.mk i (InputTask.title task) (InputTask.completed task) (InputTask.user_id task)
    /\ UserDB.id user = InputTask.user_id task /\ o = TaskDB.to_dict r
    /\ db1 = mkDB (users db) (tasks db ++ [r]) /\ to_output r db1 = (Ret o, db1).
Proof.
  unfold create_task, bind at 1, query. intro E.
  destruct (find_user_by_id _ db) as [u|]; [|discriminate].
  destruct (UserDB.id user =? InputTask.user_id task) eqn:Eu; cbn [negb] in E; [|discriminate].
  unfold bind, add_task in E. destruct (next_rowid _) as [i|] eqn:Ei; [|discriminate].
  cbv beta iota zeta in E.
  exists i. eexists. split; [reflexivity|]. split; [reflexivity|]. split; [apply Z.eqb_eq, Eu|].
  pose proof (to_output_any_state _ _ _ _ E) as E'.
  apply to_output_ret in E as [-> ->]. split; [reflexivity | split; [reflexivity | apply E']].
Qed.

(** POST /tasks/ once the caller is known and the body valid, for a body
    [user_id] the driver can bind (a signed 64-bit integer): a [user_id] no
    stored user has is a 422, one that is not the caller's a 403, both
    without a write; otherwise, with every task id below [ROWID_MAX], the
    task is stored under a rowid larger than every task id and returned as
    stored. *)
Theorem create_task_outcomes db task user :
  int64_range (InputTask.user_id task) ->
  ((forall u, In u (users db) -> UserDB.id u <> InputTask.user_id task) ->
     create_task task user db
     = (Raise (HTTPException 422 (detail "User with id " ++ py_str (InputTask.user_id task)
                                  ++ detail " does not exist")), db)) /\
  ((exists u, In u (users db) /\ UserDB.id u = InputTask.user_id task) ->
     UserDB.id user <> InputTask.user_id task ->
     create_task task user db
     = (Raise (HTTPException 403 (detail "Not authorized to create task for this user")), db)) /\
  ((exists u, In u (users db) /\ UserDB.id u = InputTask.user_id task) ->
     UserDB.id user = InputTask.user_id task -> input_valid task ->
     Forall task_valid (tasks db) ->
     Forall (fun j => j < ROWID_MAX) (map TaskDB.id (tasks db)) ->
     exists i,
       let r := TaskDB.mk i (InputTask.title task) (InputTask.completed task)
                  (InputTask.user_id task) in
       create_task task user db = (Ret (TaskDB.to_dict r), mkDB (users db) (tasks db ++ [r]))
       /\ Forall (fun j => j < i) (map TaskDB.id (tasks db))).
Proof.
  intros _. split; [|split].
  - intro Hno. unfold create_task, bind at 1, query, find_user_by_id.
    rewrite find_none_intro; [reflexivity|].
    intros x Hx. apply Z.eqb_neq, Hno, Hx.
  - intros (u & Hu & Hid) Hne. unfold create_task, bind at 1, query, find_user_by_id.
    destruct (find_exists (fun u => UserDB.id u =? InputTask.user_id task) (users db) u Hu)
      as (y & Hy); [apply Z.eqb_eq, Hid|].
    rewrite Hy. rewrite (proj2 (Z.eqb_neq _ _) Hne). reflexivity.
  - intros (u & Hu & Hid) Heq (Ht & Hp) Hv Hmax.
    destruct (next_rowid_above _ Hmax) as (i & Ei & Hi). exists i. intro r.
    unfold create_task, bind at 1, query, find_user_by_id.
    destruct (find_exists (fun u => UserDB.id u =? InputTask.user_id task) (users db) u Hu)
      as (y & Hy); [apply Z.eqb_eq, Hid|].
    rewrite Hy. rewrite (proj2 (Z.eqb_eq _ _) Heq). cbn [negb].
    unfold bind, add_task. rewrite Ei. cbv beta iota zeta. fold r.
    rewrite to_output_valid.
    + split; [reflexivity | exact Hi].
    + unfold r, task_valid; simpl. split; [|split; assumption].
      exact (next_rowid_pos _ _ (ids_pos _ Hv) Ei).
Qed.

Lemma create_task_outcomes_witness :
  exists i,
    create_task (InputTask.mk (str_of "New Task") false 1) Demo.alice Demo.db0
    = (Ret (TaskDB.to_dict (TaskDB.mk i (str_of "New Task") false 1)),
       mkDB (users Demo.db0) (tasks Demo.db0 ++ [TaskDB.mk i (str_of "New Task") false 1]))
    /\ Forall (fun j => j < i) (map TaskDB.id (tasks Demo.db0)).
Proof.
  refine (proj2 (proj2 (create_task_outcomes Demo.db0 (InputTask.mk (str_of "New Task") false 1)
                          Demo.alice _)) _ _ _ _ _).
  - unfold int64_range, ROWID_MAX; simpl; lia.
  - exists Demo.alice. split; [left; reflexivity | reflexivity].
  - reflexivity.
  - split; simpl; lia.
  - repeat constructor; simpl; lia.
  - unfold ROWID_MAX; repeat constructor; simpl; lia.
Defined.

Lemma mapM_to_output_any_state l db os d :
  mapM to_output l db = (Ret os, d) -> forall db', mapM to_output l db' = (Ret os, db').
Proof.
  revert db os d. induction l as [|x l IH]; simpl; intros db os d E db'.
  - injection E as <- _. reflexivity.
  - unfold bind at 1 in E. destruct (to_output x db) as [[y|e] d1] eqn:E1; [|discriminate].
    unfold bind in E. destruct (mapM to_output l d1) as [[ys|e] d2] eqn:E2; [|discriminate].
    injection E as <- _.
    unfold bind. rewrite (to_output_any_state _ _ _ _ E1 db'), (IH _ _ _ E2 db'). reflexivity.
Qed.

Lemma mapM_to_output_app l1 l2 db os1 os2 :
  mapM to_output l1 db = (Ret os1, db) -> mapM to_output l2 db = (Ret os2, db) ->
  mapM to_output (l1 ++ l2) db = (Ret (os1 ++ os2), db).
Proof.
  revert os1. induction l1 as [|x l IH]; simpl; intros os1 E1 E2.
  - injection E1 as <-. exact E2.
  - unfold bind at 1 in E1. destruct (to_output x db) as [[y|e] d1] eqn:Ex; [|discriminate].
    pose proof (read_only_state _ _ _ _ (ro_to_output x) Ex) as ->.
    unfold bind in E1. destruct (mapM to_output l db) as [[ys|e] d2] eqn:El; [|discriminate].
    pose proof (read_only_state _ _ _ _ (ro_mapM_to_output l) El) as ->.
    injection E1 as <-.
    unfold bind. rewrite Ex, (IH ys eq_refl E2). reflexivity.
Qed.

(** A task POST /tasks/ has just created is what GET /tasks/{id} then
    returns to the same caller, under the id it was given. *)
Theorem create_task_then_get db task user o db1 :
  create_task task user db = (Ret o, db1) ->
  get_task (OutputTask.id o) user db1 = (Ret o, db1).
Proof.
  intro E. destruct (create_task_ret _ _ _ _ _ E) as (i & r & Ei & Hr & Hu & Ho & Hd & Eo).
  assert (F : find_task (TaskDB.id r) db1 = Some r).
  { rewrite Hd. unfold find_task; cbn [tasks]. rewrite find_app_none.
    - simpl. rewrite Z.eqb_refl. reflexivity.
    - apply find_none_intro. intros x Hx. apply Z.eqb_neq. intro Hx'.
      apply (next_rowid_fresh _ _ Ei).
      rewrite Hr in Hx'. simpl in Hx'. rewrite <- Hx'. apply in_map, Hx. }
  assert (Hi : OutputTask.id o = TaskDB.id r) by (rewrite Ho; reflexivity). rewrite Hi.
  assert (Hown : TaskDB.user_id r = UserDB.id user) by (rewrite Hr; simpl; symmetry; exact Hu).
  unfold get_task, bind at 1, query. rewrite F. cbv beta iota zeta.
  rewrite (proj2 (Z.eqb_eq _ _) Hown). cbn [negb]. exact Eo.
Qed.

Lemma create_task_then_get_witness :
  exists o db1,
    create_task (InputTask.mk (str_of "New Task") false 1) Demo.alice Demo.db0 = (Ret o, db1) /\
    get_task (OutputTask.id o) Demo.alice db1 = (Ret o, db1).
Proof.
  set (r := TaskDB.mk 4 (str_of "New Task") false 1).
  exists (TaskDB.to_dict r), (mkDB (users Demo.db0) (tasks Demo.db0 ++ [r])).
  assert (E : create_task (InputTask.mk (str_of "New Task") false 1) Demo.alice Demo.db0
              = (Ret (TaskDB.to_dict r), mkDB (users Demo.db0) (tasks Demo.db0 ++ [r])))
    by reflexivity.
  split; [exact E | exact (create_task_then_get _ _ _ _ _ E)].
Defined.

(** After POST /tasks/ succeeds, GET /tasks/ for the same caller lists what
    it listed before, followed by the new task, as long as every task id is
    below [ROWID_MAX]: the new rowid is then the largest, and the table is
    read in rowid order, the order in which the rows are kept here. *)
Theorem create_task_then_list db task user o db1 os :
  Forall (fun j => j < ROWID_MAX) (map TaskDB.id (tasks db)) ->
  create_task task user db = (Ret o, db1) ->
  get_tasks user db = (Ret os, db) ->
  get_tasks user db1 = (Ret (os ++ [o]), db1).
Proof.
  intros _ E L. destruct (create_task_ret _ _ _ _ _ E) as (i & r & Ei & Hr & Hu & Ho & Hd & Eo).
  subst db1. unfold get_tasks, bind at 1, query in L. unfold get_tasks, bind at 1, query.
  cbv beta iota zeta in L |- *.
  cbn [tasks]. rewrite filter_app.
  assert (Fr : filter (fun r0 => TaskDB.user_id r0 =? UserDB.id user) [r] = [r])
    by (rewrite Hr; simpl; rewrite Hu, Z.eqb_refl; reflexivity).
  rewrite Fr. apply mapM_to_output_app.
  - exact (mapM_to_output_any_state _ _ _ _ L _).
  - simpl. unfold bind. rewrite Eo. reflexivity.
Qed.

Lemma create_task_then_list_witness :
  exists o db1,
    create_task (InputTask.mk (str_of "New Task") false 1) Demo.alice Demo.db0 = (Ret o, db1) /\
    get_tasks Demo.alice Demo.db0 = (Ret [TaskDB.to_dict Demo.task1], Demo.db0) /\
    get_tasks Demo.alice db1 = (Ret ([TaskDB.to_dict Demo.task1] ++ [o]), db1).
Proof.
  set (r := TaskDB.mk 4 (str_of "New Task") false 1).
  exists (TaskDB.to_dict r), (mkDB (users Demo.db0) (tasks Demo.db0 ++ [r])).
  assert (E : create_task (InputTask.mk (str_of "New Task") false 1) Demo.alice Demo.db0
              = (Ret (TaskDB.to_dict r), mkDB (users Demo.db0) (tasks Demo.db0 ++ [r])))
    by reflexivity.
  assert (L : get_tasks Demo.alice Demo.db0 = (Ret [TaskDB.to_dict Demo.task1], Demo.db0))
    by reflexivity.
  assert (Hmax : Forall (fun j => j < ROWID_MAX) (map TaskDB.id (tasks Demo.db0)))
    by (unfold ROWID_MAX; repeat constructor; simpl; lia).
  split; [exact E | split; [exact L | exact (create_task_then_list _ _ _ _ _ _ Hmax E L)]].
Defined.

Lemma find_task_update_row db p p' i :
  find_task i db = Some p -> TaskDB.id p' = i -> find_task i (update_row p' db) = Some p'.
Proof.
  unfold find_task, update_row. cbn [tasks]. intros F <-. revert F.
  induction (tasks db) as [|a l IH]; simpl; intro F; [discriminate|].
  destruct (TaskDB.id a =? TaskDB.id p') eqn:Ea; simpl.
  - rewrite Z.eqb_refl. reflexivity.
  - rewrite Ea. exact (IH F).
Qed.

(** After PUT /tasks/{id} succeeds, GET /tasks/{id} by the same caller
    returns the updated task when the body kept the caller as [user_id];
    when the body gave the task to another user, the caller gets a 403. *)
Theorem update_task_then_get db i task user o db1 :
  update_task i task user db = (Ret o, db1) ->
  get_task i user db1
  = if InputTask.user_id task =? UserDB.id user then (Ret o, db1)
    else (Raise (HTTPException 403 (detail "Not authorized to access this task")), db1).
Proof.
  unfold update_task, bind at 1, query. intro E.
  destruct (find_task i db) as [p|] eqn:F; [|discriminate].
  destruct (negb _); [discriminate|].
  unfold bind, commit in E.
  pose proof (to_output_any_state _ _ _ _ E) as E'.
  apply to_output_ret in E as [Ho ->].
  assert (Hi : TaskDB.id p = i) by (apply find_some in F as [_ H]; apply Z.eqb_eq, H).
  unfold get_task, bind at 1, query.
  rewrite (find_task_update_row db p _ i F) by exact Hi.
  cbv beta iota zeta. cbn [TaskDB.user_id].
  destruct (InputTask.user_id task =? UserDB.id user); cbn [negb]; [apply E' | reflexivity].
Qed.

Lemma update_task_then_get_witness :
  exists o db1,
    update_task 1 (InputTask.mk (str_of "Sample Task 1") false 2) Demo.alice Demo.db0
    = (Ret o, db1) /\
    get_task 1 Demo.alice db1
    = (Raise (HTTPException 403 (detail "Not authorized to access this task")), db1).
Proof.
  set (p' := TaskDB.mk 1 (str_of "Sample Task 1") false 2).
  exists (TaskDB.to_dict p'), (update_row p' Demo.db0).
  assert (E : update_task 1 (InputTask.mk (str_of "Sample Task 1") false 2) Demo.alice Demo.db0
              = (Ret (TaskDB.to_dict p'), update_row p' Demo.db0)) by reflexivity.
  split; [exact E | exact (update_task_then_get _ _ _ _ _ _ E)].
Defined.

(** A successful DELETE /tasks/{id} removes the rows with that id and no
    other, leaves the users as they were, and returns a task of the caller
    that had that id. *)
Theorem delete_task_removes_only db i user o db1 :
  delete_task i user db = (Ret o, db1) ->
  users db1 = users db /\
  (forall t, In t (tasks db1) <-> In t (tasks db) /\ TaskDB.id t <> i) /\
  (exists t, In t (tasks db) /\ TaskDB.id t = i /\ TaskDB.user_id t = UserDB.id user
             /\ o = TaskDB.to_dict t).
Proof.
  unfold delete_task, bind at 1, query. intro E.
  destruct (find_task i db) as [t|] eqn:F; [|discriminate].
  destruct (negb (TaskDB.user_id t =? UserDB.id user)) eqn:Eu; [discriminate|].
  unfold bind, commit in E. apply to_output_ret in E as [-> ->].
  apply find_some in F as [Hin Hid]. apply Z.eqb_eq in Hid.
  split; [reflexivity | split].
  - intro x. unfold delete_row; cbn [tasks].
    rewrite filter_In, negb_true_iff, Z.eqb_neq, Hid. reflexivity.
  - exists t. repeat split; [exact Hin | exact Hid |].
    apply negb_false_iff, Z.eqb_eq in Eu. exact Eu.
Qed.

Lemma delete_task_removes_only_witness :
  exists o db1, delete_task 1 Demo.alice Demo.db0 = (Ret o, db1) /\ In Demo.task3 (tasks db1).
Proof.
  exists (TaskDB.to_dict Demo.task1), (delete_row 1 Demo.db0).
  assert (E : delete_task 1 Demo.alice Demo.db0
              = (Ret (TaskDB.to_dict Demo.task1), delete_row 1 Demo.db0)) by reflexivity.
  split; [exact E|].
  apply (proj1 (proj2 (delete_task_removes_only _ _ _ _ _ E)) Demo.task3).
  split; [right; left; reflexivity | discriminate].
Defined.

(** ** Invariants of the stored rows *)

Lemma preserves_read_only (P : DB -> Prop) {A} (m : M A) : read_only m -> preserves P m.
Proof. intros H db Hp. rewrite H. exact Hp. Qed.

Lemma preserves_bind (P : DB -> Prop) {A B} (m : M A) (k : A -> M B) :
  preserves P m -> (forall a, preserves P (k a)) -> preserves P (bind m k).
Proof.
  intros Hm Hk db Hp. unfold bind. specialize (Hm db Hp).
  destruct (m db) as [[a|e] d]; simpl in *; [apply Hk|]; exact Hm.
Qed.

Lemma preserves_validate (P : DB -> Prop) {A B} (v : option A) (k : A -> M B) :
  (forall a, v = Some a -> preserves P (k a)) -> preserves P (bind (validate v) k).
Proof.
  intros Hk db Hp. unfold bind, validate.
  destruct v as [a|]; [apply (Hk a eq_refl); exact Hp | exact Hp].
Qed.

Lemma route_preserves (P : DB -> Prop) {A} code (out : A -> RBody) (m : M A) db :
  preserves P m -> P db -> P (snd (route code out m db)).
Proof.
  intros Hm Hp. unfold route. specialize (Hm db Hp). destruct (m db) as [[a|e] d]; exact Hm.
Qed.

#[export] Hint Resolve preserves_read_only : monad.

Lemma NoDup_app_fresh {A} (l : list A) x : NoDup l -> ~ In x l -> NoDup (l ++ [x]).
Proof.
  induction l as [|a l IH]; simpl; intros H Hx.
  - constructor; [intros []|constructor].
  - inversion H as [|? ? Ha Hl]; subst. constructor.
    + intro Hin. apply in_app_or in Hin as [Hin|[Hin|[]]]; [exact (Ha Hin) | exact (Hx (or_introl (eq_sym Hin)))].
    + apply IH; [exact Hl | intro Hin; exact (Hx (or_intror Hin))].
Qed.

Lemma NoDup_map_filter {A B} (f : A -> B) (p : A -> bool) l :
  NoDup (map f l) -> NoDup (map f (filter p l)).
Proof.
  induction l as [|a l IH]; simpl; intro H; [constructor|].
  inversion H as [|? ? Ha Hl]; subst. destruct (p a); simpl; [constructor|]; auto.
  intro Hin. apply Ha. apply in_map_iff in Hin as (y & Hy & Hin).
  apply filter_In in Hin as [Hin _]. rewrite <- Hy. apply in_map, Hin.
Qed.

Lemma keys_unique_add_task it : preserves keys_unique (add_task it).
Proof.
  intros db (Hu & He & Ht). unfold add_task.
  destruct (next_rowid _) as [i|] eqn:Ei; [|split; [exact Hu | split; assumption]].
  split; [exact Hu | split; [exact He|]].
  cbn. rewrite map_app. apply NoDup_app_fresh; [exact Ht | exact (next_rowid_fresh _ _ Ei)].
Qed.

Lemma keys_unique_delete_row i : preserves keys_unique (commit (delete_row i)).
Proof.
  intros db (Hu & He & Ht). unfold commit, delete_row.
  split; [exact Hu | split; [exact He|]].
  cbn. apply NoDup_map_filter, Ht.
Qed.

Lemma keys_unique_update_row r : preserves keys_unique (commit (update_row r)).
Proof.
  intros db (Hu & He & Ht). unfold commit, update_row.
  split; [exact Hu | split; [exact He|]].
  cbn. rewrite map_map.
  replace (map (fun x => TaskDB.id (if TaskDB.id x =? TaskDB.id r then r else x)) (tasks db))
    with (map TaskDB.id (tasks db)); [exact Ht|].
  apply map_ext. intro x. destruct (TaskDB.id x =? TaskDB.id r) eqn:E; [|reflexivity].
  apply Z.eqb_eq, E.
Qed.

Lemma keys_unique_register hash tl env data : preserves keys_unique (register hash tl env data).
Proof.
  intros db (Hu & He & Ht). unfold register, bind at 1, query.
  destruct (find_user_by_email (LoginInput.email data) db) as [u|] eqn:F;
    [split; [exact Hu | split; assumption]|].
  cbv beta iota zeta.
  destruct (hash (LoginInput.password data)) as [h|]; [|split; [exact Hu | split; assumption]].
  unfold bind at 1, add_user.
  destruct (next_rowid _) as [i|] eqn:Ei; [|split; [exact Hu | split; assumption]].
  cbv beta iota zeta. rewrite ro_create_token.
  split; [|split; [|exact Ht]]; cbn; rewrite map_app; apply NoDup_app_fresh; try assumption.
  - exact (next_rowid_fresh _ _ Ei).
  - simpl. intro Hin. apply in_map_iff in Hin as (x & Hx & Hin).
    destruct (find_exists (fun u => pystr_eqb (UserDB.email u) (LoginInput.email data))
                (users db) x Hin) as (y & Hy); [apply pystr_eqb_eq, Hx|].
    unfold find_user_by_email in F. congruence.
Qed.

Lemma keys_unique_create_task task user : preserves keys_unique (create_task task user).
Proof.
  unfold create_task. apply preserves_bind; [apply preserves_read_only, ro_query|].
  intros [u|]; [|apply preserves_read_only, ro_raise].
  destruct (negb _); [apply preserves_read_only, ro_raise|].
  apply preserves_bind; [apply keys_unique_add_task | intro; apply preserves_read_only, ro_to_output].
Qed.

Lemma keys_unique_delete_task i user : preserves keys_unique (delete_task i user).
Proof.
  unfold delete_task. apply preserves_bind; [apply preserves_read_only, ro_query|].
  intros [t|]; [|apply preserves_read_only, ro_raise].
  destruct (negb _); [apply preserves_read_only, ro_raise|].
  apply preserves_bind; [apply keys_unique_delete_row | intro; apply preserves_read_only, ro_to_output].
Qed.

Lemma keys_unique_update_task i task user : preserves keys_unique (update_task i task user).
Proof.
  unfold update_task. apply preserves_bind; [apply preserves_read_only, ro_query|].
  intros [p|]; [|apply preserves_read_only, ro_raise].
  destruct (negb _); [apply preserves_read_only, ro_raise|].
  apply preserves_bind; [apply keys_unique_update_row | intro; apply preserves_read_only, ro_to_output].
Qed.

Lemma handle_keys_unique hash verify tl env db r :
  keys_unique db -> keys_unique (snd (handle hash verify tl env db r)).
Proof.
  destruct r as [| b | b | tok i | tok b | tok i | tok i b | tok]; simpl handle; intro Hk;
    try (apply route_preserves; [|exact Hk]).
  - exact Hk.
  - apply preserves_read_only, ro_bind; [apply ro_validate | intro; apply ro_login].
  - apply preserves_validate. intros; apply keys_unique_register.
  - apply preserves_read_only, ro_bind; [apply ro_oauth2_user|]. intro.
    apply ro_bind; [apply ro_validate | intro; apply ro_get_task].
  - apply preserves_bind; [apply preserves_read_only, ro_oauth2_user|]. intro.
    apply preserves_validate. intros; apply keys_unique_create_task.
  - apply preserves_bind; [apply preserves_read_only, ro_oauth2_user|]. intro.
    apply preserves_validate. intros; apply keys_unique_delete_task.
  - apply preserves_bind; [apply preserves_read_only, ro_oauth2_user|]. intro.
    apply preserves_validate. intros; apply keys_unique_update_task.
  - apply preserves_read_only, ro_bind; [apply ro_oauth2_user | intro; apply ro_get_tasks].
Qed.

(** Whatever requests the API serves, user ids, user emails and task ids
    stay unique: POST /register refuses a stored email and takes the next
    rowid, POST /tasks/ takes the next rowid, PUT keeps the row's id and
    DELETE only removes rows. *)
Theorem run_keys_unique hash verify tl env rs db :
  keys_unique db -> keys_unique (run hash verify tl env rs db).
Proof.
  revert db. induction rs as [|r rs IH]; simpl; intros db Hk; [exact Hk|].
  apply IH, handle_keys_unique, Hk.
Qed.

Lemma run_keys_unique_witness :
  keys_unique Demo.db0 /\
  keys_unique (Demo.run [PostRegister (Demo.credentials "carol@example.com" "testpwd");
                         PostRegister (Demo.credentials "carol@example.com" "otherpwd");
                         PostTask (Demo.token_of "1") (Demo.task_body (str_of "New Task") 1);
                         DeleteTask (Demo.token_of "1") 1] Demo.db0).
Proof.
  assert (H : keys_unique Demo.db0)
    by (unfold keys_unique; simpl; repeat split; repeat constructor; simpl; intuition discriminate).
  split; [exact H | apply run_keys_unique, H].
Defined.

Lemma fk_ok_register hash tl env data : preserves fk_ok (register hash tl env data).
Proof.
  intros db Hf. unfold register, bind at 1, query.
  destruct (find_user_by_email (LoginInput.email data) db) as [u|]; [exact Hf|].
  cbv beta iota zeta. destruct (hash (LoginInput.password data)) as [h|]; [|exact Hf].
  unfold bind at 1, add_user. destruct (next_rowid _); [|exact Hf].
  cbv beta iota zeta. rewrite ro_create_token.
  intros t Ht. destruct (Hf t Ht) as (u & Hu & Hid).
  exists u. split; [apply in_or_app; left; exact Hu | exact Hid].
Qed.

Lemma fk_ok_create_task task user : preserves fk_ok (create_task task user).
Proof.
  intros db Hf. unfold create_task, bind at 1, query.
  destruct (find_user_by_id (InputTask.user_id task) db) as [u|] eqn:F; [|exact Hf].
  destruct (negb _); [exact Hf|].
  unfold bind at 1, add_task. destruct (next_rowid _); [|exact Hf].
  cbv beta iota zeta. rewrite ro_to_output.
  intros t Ht. cbn in Ht. apply in_app_or in Ht as [Ht|[<-|[]]]; [exact (Hf t Ht)|].
  unfold find_user_by_id in F. apply find_some in F as [Hu Hid].
  exists u. split; [exact Hu | apply Z.eqb_eq, Hid].
Qed.

Lemma fk_ok_delete_task i user : preserves fk_ok (delete_task i user).
Proof.
  unfold delete_task. apply preserves_bind; [apply preserves_read_only, ro_query|].
  intros [t|]; [|apply preserves_read_only, ro_raise].
  destruct (negb _); [apply preserves_read_only, ro_raise|].
  apply preserves_bind; [|intro; apply preserves_read_only, ro_to_output].
  intros db Hf x Hx. unfold commit, delete_row in Hx. cbn in Hx.
  apply filter_In in Hx as [Hx _]. exact (Hf x Hx).
Qed.

Lemma handle_fk_ok hash verify tl env db r :
  is_put r = false -> fk_ok db -> fk_ok (snd (handle hash verify tl env db r)).
Proof.
  destruct r as [| b | b | tok i | tok b | tok i | tok i b | tok]; simpl handle; intros Hp Hf;
    try discriminate; try (apply route_preserves; [|exact Hf]).
  - exact Hf.
  - apply preserves_read_only, ro_bind; [apply ro_validate | intro; apply ro_login].
  - apply preserves_validate. intros; apply fk_ok_register.
  - apply preserves_read_only, ro_bind; [apply ro_oauth2_user|]. intro.
    apply ro_bind; [apply ro_validate | intro; apply ro_get_task].
  - apply preserves_bind; [apply preserves_read_only, ro_oauth2_user|]. intro.
    apply preserves_validate. intros; apply fk_ok_create_task.
  - apply preserves_bind; [apply preserves_read_only, ro_oauth2_user|]. intro.
    apply preserves_validate. intros; apply fk_ok_delete_task.
  - apply preserves_read_only, ro_bind; [apply ro_oauth2_user | intro; apply ro_get_tasks].
Qed.

(** Every task row keeps referencing a stored user through any sequence of
    requests without PUT /tasks/{id}: POST /tasks/ checks the [user_id],
    registration only adds users, and nothing deletes a user. *)
Theorem run_fk_ok_without_put hash verify tl env rs db :
  forallb (fun r => negb (is_put r)) rs = true -> fk_ok db ->
  fk_ok (run hash verify tl env rs db).
Proof.
  revert db. induction rs as [|r rs IH]; simpl; intros db Hp Hf; [exact Hf|].
  apply andb_prop in Hp as [Hr Hp]. apply negb_true_iff in Hr.
  apply IH; [exact Hp | apply handle_fk_ok; assumption].
Qed.

Lemma run_fk_ok_without_put_witness :
  fk_ok Demo.db0 /\
  fk_ok (Demo.run [PostRegister (Demo.credentials "carol@example.com" "testpwd");
                   PostTask (Demo.token_of "1") (Demo.task_body (str_of "New Task") 1);
                   PostTask (Demo.token_of "1") (Demo.task_body (str_of "Bad Task") 9);
                   DeleteTask (Demo.token_of "1") 1] Demo.db0).
Proof.
  assert (H : fk_ok Demo.db0).
  { intros t Ht. simpl in Ht. destruct Ht as [<-|[<-|[]]].
    - exists Demo.alice. split; [left | ]; reflexivity.
    - exists Demo.bob. split; [right; left | ]; reflexivity. }
  split; [exact H | apply run_fk_ok_without_put; [reflexivity | exact H]].
Defined.

(** ** Routes and schemas *)

Lemma route_read_only {A} code (out : A -> RBody) (m : M A) db :
  read_only m -> snd (route code out m db) = db.
Proof.
  intro Hm. unfold route. specialize (Hm db). destruct (m db) as [[a|e] d]; exact Hm.
Qed.

(** GET /, POST /login, GET /tasks/{id} and GET /tasks/ never change the
    database, whatever the request and whatever they answer. *)
Theorem read_only_routes hash verify tl env db b tok i :
  snd (handle hash verify tl env db GetRoot) = db /\
  snd (handle hash verify tl env db (PostLogin b)) = db /\
  snd (handle hash verify tl env db (GetTask tok i)) = db /\
  snd (handle hash verify tl env db (GetTasks tok)) = db.
Proof.
  simpl handle. split; [reflexivity|]. repeat split; apply route_read_only.
  - apply ro_bind; [apply ro_validate | intro; apply ro_login].
  - apply ro_bind; [apply ro_oauth2_user|]. intro.
    apply ro_bind; [apply ro_validate | intro; apply ro_get_task].
  - apply ro_bind; [apply ro_oauth2_user | intro; apply ro_get_tasks].
Qed.


Lemma splits_app s a r : In (a, r) (splits s) -> s = a ++ r.
Proof.
  revert a r. induction s as [|c s IH]; simpl; intros a r H.
  - destruct H as [H|[]]. injection H as <- <-. reflexivity.
  - destruct H as [H|H]; [injection H as <- <-; reflexivity|].
    apply in_map_iff in H as ([a' r'] & E & Hin). simpl in E. injection E as <- <-.
    rewrite (IH _ _ Hin). reflexivity.
Qed.

Lemma plus_class_spec p s : plus_class p s = true -> s <> [] /\ forallb p s = true.
Proof. destruct s as [|c s]; simpl; [discriminate|]. intro H. split; [discriminate | exact H]. Qed.

Lemma forallb_count_occ_0 p l x : forallb p l = true -> p x = false -> count_occ Z.eq_dec l x = 0%nat.
Proof.
  induction l as [|a l IH]; simpl; intros H Hx; [reflexivity|].
  apply andb_prop in H as [Ha H]. destruct (Z.eq_dec a x) as [->|]; [congruence | exact (IH H Hx)].
Qed.

(** An email [LoginInput] accepts has at most 254 code points and exactly
    one [@]; before it come one or more of [A-Za-z0-9._%+-], after it one
    or more of [A-Za-z0-9.-], a dot and two or more ASCII letters; the
    password has at least 7 code points. *)
Theorem login_input_email_shape b data :
  validate_login_input b = Some data ->
  (List.length (LoginInput.email data) <= 254)%nat /\ (7 <= List.length (LoginInput.password data))%nat /\
  count_occ Z.eq_dec (LoginInput.email data) 64 = 1%nat /\
  exists l d tld, LoginInput.email data = l ++ 64 :: d ++ 46 :: tld /\
    l <> [] /\ forallb local_char l = true /\ d <> [] /\ forallb domain_char d = true /\
    (2 <= List.length tld)%nat /\ forallb is_alpha tld = true.
Proof.
  unfold validate_login_input. destruct (negb _); [discriminate|].
  destruct (option_map as_str (lookup (str_of "email") b)) as [[e|]|]; [|discriminate|discriminate].
  destruct (option_map as_str (lookup (str_of "password") b)) as [[p|]|]; [|discriminate|discriminate].
  destruct (_ && _ && _) eqn:C; [|discriminate]. intro E; injection E as <-. simpl.
  apply andb_prop in C as [C L2]. apply andb_prop in C as [L1 Ep].
  apply Nat.leb_le in L1. apply Nat.leb_le in L2.
  unfold email_pattern in Ep. apply existsb_exists in Ep as ([l r] & Hs & Ep).
  apply andb_prop in Ep as [Hl Hr]. simpl in Hl, Hr.
  apply plus_class_spec in Hl as [Hl0 Hl].
  destruct r as [|c r']; [discriminate|]. unfold domain_part in Hr.
  apply andb_prop in Hr as [Hc Hr]. apply Z.eqb_eq in Hc. subst c.
  apply existsb_exists in Hr as ([d r2] & Hs2 & Hr). apply andb_prop in Hr as [Hd Ht]. simpl in Hd, Ht.
  apply plus_class_spec in Hd as [Hd0 Hd].
  destruct r2 as [|c2 tld]; [discriminate|]. unfold tld_part in Ht.
  apply andb_prop in Ht as [Ht Ha]. apply andb_prop in Ht as [Hc2 Hn].
  apply Z.eqb_eq in Hc2. subst c2. apply Nat.leb_le in Hn.
  apply splits_app in Hs. apply splits_app in Hs2. subst e r'.
  split; [exact L1 | split; [exact L2 | split]].
  - rewrite count_occ_app, count_occ_cons_eq by reflexivity.
    rewrite count_occ_app, count_occ_cons_neq by discriminate.
    rewrite (forallb_count_occ_0 _ _ _ Hl) by reflexivity.
    rewrite (forallb_count_occ_0 _ _ _ Hd) by reflexivity.
    rewrite (forallb_count_occ_0 _ _ _ Ha) by reflexivity. reflexivity.
  - exists l, d, tld. repeat split; assumption.
Qed.

Lemma login_input_email_shape_witness :
  exists data, validate_login_input (Demo.credentials "alice@example.com" "testpwd") = Some data /\
    count_occ Z.eq_dec (LoginInput.email data) 64 = 1%nat.
Proof.
  exists (LoginInput.mk (str_of "alice@example.com") (str_of "testpwd")).
  assert (V : validate_login_input (Demo.credentials "alice@example.com" "testpwd")
              = Some (LoginInput.mk (str_of "alice@example.com") (str_of "testpwd"))) by reflexivity.
  split; [exact V | exact (proj1 (proj2 (proj2 (login_input_email_shape _ _ V))))].
Defined.

Lemma run_keeps_valid_witness :
  Forall task_valid (tasks Demo.db0) /\
  Forall task_valid (tasks (Demo.run [PostTask (Demo.token_of "1") (Demo.task_body (str_of "New Task") 1);
                                      PutTask (Demo.token_of "1") 1 (Demo.task_body (str_of "Renamed") 1)]
                              Demo.db0)).
Proof.
  assert (Hv : Forall task_valid (tasks Demo.db0)) by (repeat constructor; simpl; lia).
  split; [exact Hv | apply run_keeps_valid, Hv].
Defined.
